(** * Portfolio chatbot backend: the bot-response polling and caching core

    A shallow embedding of
      - the caching [BotpressService] ([calculateBackoff], the conversation
        cache, [sendMessage], [waitForBotResponse], [listMessages]), whose
        text, headed [src/services/botpressService.ts], follows
        [ContactService] in [src/services/contactService.ts]; the earlier
        service that [src/services/botpressService.ts] itself holds is
        [Legacy],
      - [src/controllers/chatController.ts] ([handleChatMessage], the
        version with validation and per-step error handling),
      - [src/controllers/contactController.ts] and [ContactService] (the
        contact form relay),
    followed by the properties the specification states about them.

    Modelling conventions.
      - A JavaScript string is a [string]; one character stands for one
        UTF-16 code unit (code units below 256), so [String.length] is
        [.length].
      - JavaScript numbers that are integers (timestamps, lengths) are [Z];
        the backoff arithmetic is carried out over the rationals [Q], i.e.
        without the rounding of IEEE doubles.
      - A thrown exception is the left summand of a result; asynchronous
        code is sequential state passing over a [World].
      - [logger] calls are dropped, except where evaluating their arguments
        can throw. *)

From Stdlib Require Import ZArith QArith Qminmax Qpower Qround Ascii String List Lia Lqa Bool.
From stdpp Require Import base option list gmap strings fin_maps.

Local Open Scope string_scope.
Local Open Scope Z_scope.

(* ===================================================================== *)
(** ** JavaScript values and strings                                       *)
(* ===================================================================== *)

(** A JSON value as [express.json()] hands it to a controller. *)
#[warnings="-register-all"]
Inductive JsValue : Type :=
| JsUndefined
| JsNull
| JsBool (b : bool)
| JsNumber (q : Q)
| JsString (s : string)
| JsArray (items : list JsValue)
| JsObject (fields : list (string * JsValue)).

(** [!!v] *)
Definition truthy (v : JsValue) : bool :=
  match v with
  | JsUndefined | JsNull => false
  | JsBool b => b
  | JsNumber q => negb (Qeq_bool q 0)
  | JsString s => negb (String.eqb s "")
  | JsArray _ | JsObject _ => true
  end.

(** [typeof v === 'string'] *)
Definition isString (v : JsValue) : bool :=
  match v with JsString _ => true | _ => false end.

(** A thrown [Error]; only its message is kept. *)
Record JsError := Err { err_message : string }.

(** [!s] for an optional string ([undefined] or a string): the empty
    string is falsy too. *)
Definition absent (o : option string) : bool :=
  match o with
  | None => true
  | Some s => String.eqb s ""
  end.

(** White space as [String.prototype.trim] and the regular expression class
    [\s] see it, among the code units below 256: TAB, LF, VT, FF, CR, SP and
    NBSP. *)
Definition isWhiteSpace (c : ascii) : bool :=
  let n := nat_of_ascii c in
  ((9 <=? n) && (n <=? 13) || (n =? 32) || (n =? 160))%nat.

Fixpoint trimStart (s : string) : string :=
  match s with
  | EmptyString => EmptyString
  | String c r => if isWhiteSpace c then trimStart r else s
  end.

Fixpoint trimEnd (s : string) : string :=
  match s with
  | EmptyString => EmptyString
  | String c r =>
      match trimEnd r with
      | EmptyString => if isWhiteSpace c then EmptyString else String c EmptyString
      | r' => String c r'
      end
  end.

(** [s.trim()] *)
Definition trim (s : string) : string := trimEnd (trimStart s).

(** [s.substring(0, n)] for [0 <= n] *)
Fixpoint prefix (n : nat) (s : string) : string :=
  match n, s with
  | S n', String c r => String c (prefix n' r)
  | _, _ => EmptyString
  end.

(* ===================================================================== *)
(** ** Regular expressions (for the e-mail format test)                    *)
(* ===================================================================== *)

Inductive Regex : Type :=
| RNone
| REps
| RClass (p : ascii -> bool)
| RSeq (r1 r2 : Regex)
| RAlt (r1 r2 : Regex)
| RStar (r : Regex).

(** [r+] *)
Definition RPlus (r : Regex) : Regex := RSeq r (RStar r).

Fixpoint nullable (r : Regex) : bool :=
  match r with
  | RNone => false
  | REps => true
  | RClass _ => false
  | RSeq r1 r2 => nullable r1 && nullable r2
  | RAlt r1 r2 => nullable r1 || nullable r2
  | RStar _ => true
  end.

(** Brzozowski derivative, with the unit and zero laws applied on the way so
    that the derivative stays small. *)
Definition mkSeq (r1 r2 : Regex) : Regex :=
  match r1, r2 with
  | RNone, _ => RNone
  | _, RNone => RNone
  | REps, _ => r2
  | _, _ => RSeq r1 r2
  end.

Definition mkAlt (r1 r2 : Regex) : Regex :=
  match r1, r2 with
  | RNone, _ => r2
  | _, RNone => r1
  | _, _ => RAlt r1 r2
  end.

Fixpoint deriv (c : ascii) (r : Regex) : Regex :=
  match r with
  | RNone | REps => RNone
  | RClass p => if p c then REps else RNone
  | RSeq r1 r2 =>
      if nullable r1
      then mkAlt (mkSeq (deriv c r1) r2) (deriv c r2)
      else mkSeq (deriv c r1) r2
  | RAlt r1 r2 => mkAlt (deriv c r1) (deriv c r2)
  | RStar r1 => mkSeq (deriv c r1) (RStar r1)
  end.

(** [/^r$/.test(s)]: the whole string is in the language of [r]. *)
Fixpoint regexTest (r : Regex) (s : string) : bool :=
  match s with
  | EmptyString => nullable r
  | String c s' => regexTest (deriv c r) s'
  end.

(** [[^\s@]] *)
Definition notSpaceNorAt (c : ascii) : bool :=
  negb (isWhiteSpace c) && negb (Ascii.eqb c "@").

(** [/^[^\s@]+@[^\s@]+\.[^\s@]+$/] *)
Definition emailRegex : Regex :=
  RSeq (RPlus (RClass notSpaceNorAt))
    (RSeq (RClass (Ascii.eqb "@"))
       (RSeq (RPlus (RClass notSpaceNorAt))
          (RSeq (RClass (Ascii.eqb "."))
             (RPlus (RClass notSpaceNorAt))))).

(* ===================================================================== *)
(** ** Data model ([src/types/botpress.ts])                                *)
(* ===================================================================== *)

Record MessagePayload := {
  payload_type : string;
  payload_text : string
}.

Record BotpressMessage := {
  msg_id : string;
  msg_createdAt : string;
  msg_conversationId : string;
  msg_userId : string;
  msg_payload : MessagePayload
}.

Record BotpressMessageResponse := {
  resp_message : BotpressMessage
}.

Record BotpressUser := {
  user_id : string;
  user_key : string
}.

(** [meta: Record<string, any>] *)
Record MessagesResponse := {
  messages : list BotpressMessage;
  meta : gmap string JsValue
}.

(** The cache entry of [botpressService.ts]. *)
Record ConversationCache := {
  cache_messages : list BotpressMessage;
  lastUpdated : Z;
  ttl : Z
}.

Definition CACHE_TTL : Z := 5 * 60 * 1000.
Definition MAX_RETRIES : nat := 15.
Definition INITIAL_WAIT : Q := 500.
Definition MAX_WAIT : Q := 3000.
Definition MAX_NO_CHANGE_ATTEMPTS : nat := 3.

(* ===================================================================== *)
(** ** The outside world                                                   *)
(* ===================================================================== *)

(** What the relay ([api.web3forms.com]) answers: [{success, message?}]. *)
Record RelayResult := {
  relay_success : JsValue;
  relay_message : option string
}.

(** The HTTP requests the process can issue. *)
Inductive Call : Type :=
| PostUsers
| PostConversations (userKey : string)
| PostMessages (userKey conversationId text : string)
| GetMessages (userKey conversationId : string)
| RelayTest
| RelaySubmit (name email message : string).

(** What can be observed from outside: HTTP requests (with the error they
    ended in, if any) and timer sleeps. *)
Inductive Event : Type :=
| EvHttp (c : Call) (failure : option JsError)
| EvSleep (ms : Q).

Definition isSleep (e : Event) : bool :=
  match e with EvSleep _ => true | EvHttp _ _ => false end.

Definition isGetMessages (e : Event) : bool :=
  match e with EvHttp (GetMessages _ _) _ => true | _ => false end.

(** The collaborators of the process: the chat platform, the relay, the
    clock, the random source and the timer. [Env] is their state; every
    operation may change it. [Date_valueOf] is the time value of
    [new Date(s)], [None] for an invalid date (NaN). *)
Record Platform := {
  Env : Type;
  http_post_users : Env -> Env * (JsError + (string * BotpressUser));
  http_post_conversations : string -> Env -> Env * (JsError + option string);
  http_post_messages :
    string -> string -> string -> Env -> Env * (JsError + BotpressMessageResponse);
  http_get_messages : string -> string -> Env -> Env * (JsError + MessagesResponse);
  fetch_relay : Call -> Env -> Env * (JsError + RelayResult);
  Date_now : Env -> Env * Z;
  Math_random : Env -> Env * Q;
  Math_random_range : forall e, (0 <= snd (Math_random e) /\ snd (Math_random e) < 1)%Q;
  setTimeout : Q -> Env -> Env;
  Date_valueOf : string -> option Z
}.

(* ===================================================================== *)
(** ** Pure parts of [BotpressService]                                     *)
(* ===================================================================== *)

(** [calculateBackoff(attempt)] with the sample [r] of [Math.random()];
    [exponentialOf] is its local [exponential]. *)
Definition exponentialOf (attempt : nat) : Q :=
  Qmin (INITIAL_WAIT * (3 # 2) ^ Z.of_nat attempt) MAX_WAIT.

Definition backoffOf (attempt : nat) (r : Q) : Q :=
  let exponential := exponentialOf attempt in
  let jitter := (r * (1 # 10) * exponential)%Q in
  (exponential + jitter)%Q.

(** [clearExpiredCache()] at clock reading [now]: every entry with
    [now - lastUpdated > ttl] is deleted. *)
Definition clearExpiredAt (now : Z) (m : gmap string ConversationCache)
  : gmap string ConversationCache :=
  filter (fun kv => now - lastUpdated (snd kv) <= ttl (snd kv)) m.

(** The lookup of [getCachedMessages] at clock reading [now]. *)
Definition lookupFreshAt (now : Z) (conversationId : string)
    (m : gmap string ConversationCache) : option (list BotpressMessage) :=
  match m !! conversationId with
  | Some cache =>
      if now - lastUpdated cache <? ttl cache then Some (cache_messages cache) else None
  | None => None
  end.

(** The entry [updateCache] writes at clock reading [now]. *)
Definition freshEntry (now : Z) (msgs : list BotpressMessage) : ConversationCache :=
  {| cache_messages := msgs; lastUpdated := now; ttl := CACHE_TTL |}.

(** The [meta] of a response served from the cache. *)
Definition cachedMeta (msgs : list BotpressMessage) : gmap string JsValue :=
  <["pageSize" := JsNumber (inject_Z (Z.of_nat (length msgs)))]>
    (<["nextToken" := JsUndefined]> ∅).

(** The loop variables of [waitForBotResponse]. *)
Record LoopState := {
  lastKnownMessageCount : nat;
  noChangeCount : nat
}.

Definition initialLoopState : LoopState :=
  {| lastKnownMessageCount := 0; noChangeCount := 0 |}.

(** How one iteration of the [for] loop ends. *)
Inductive Flow : Type :=
| Continue (st : LoopState)
| Break
| Return (m : BotpressMessage).

Section Waiter.

Variable valueOf : string -> option Z.

(** [new Date(a) > new Date(b)]: false as soon as one date is invalid. *)
Definition laterThan (a b : string) : bool :=
  match valueOf a, valueOf b with
  | Some x, Some y => y <? x
  | _, _ => false
  end.

(** [messages.find(m => m.id === lastMessageId)] *)
Definition findSent (lastMessageId : string) (msgs : list BotpressMessage)
  : option BotpressMessage :=
  List.find (fun m => String.eqb (msg_id m) lastMessageId) msgs.

(** The [filter] that computes [botMessages]. *)
Definition botMessages (lastMessageId : string) (lastMessage : BotpressMessage)
    (msgs : list BotpressMessage) : list BotpressMessage :=
  List.filter
    (fun msg => negb (String.eqb (msg_id msg) lastMessageId)
                && laterThan (msg_createdAt msg) (msg_createdAt lastMessage))
    msgs.

(** [if (botMessages.length > 0) return botMessages[0]], else next
    iteration with the loop variables [st]. *)
Definition selectReply (lastMessageId : string) (lastMessage : BotpressMessage)
    (msgs : list BotpressMessage) (st : LoopState) : Flow :=
  match botMessages lastMessageId lastMessage msgs with
  | m :: _ => Return m
  | [] => Continue st
  end.

(** The body of the [for] loop after [listMessages] has answered [msgs]. *)
Definition pollStep (lastMessageId : string) (st : LoopState)
    (msgs : list BotpressMessage) : Flow :=
  match findSent lastMessageId msgs with
  | None => Continue st
  | Some lastMessage =>
      if (length msgs =? lastKnownMessageCount st)%nat then
        let n := S (noChangeCount st) in
        if (MAX_NO_CHANGE_ATTEMPTS <=? n)%nat then Break
        else selectReply lastMessageId lastMessage msgs
               {| lastKnownMessageCount := lastKnownMessageCount st;
                  noChangeCount := n |}
      else selectReply lastMessageId lastMessage msgs
             {| lastKnownMessageCount := length msgs; noChangeCount := 0 |}
  end.

End Waiter.

(* ===================================================================== *)
(** ** State, exceptions and the primitive effects                         *)
(* ===================================================================== *)

(** The state of the process and of its surroundings: the private
    [conversationCache] map of the [BotpressService] singleton, the state of
    the collaborators, and the events so far (most recent first). *)
Record World (P : Platform) := mkWorld {
  conversationCache : gmap string ConversationCache;
  env : Env P;
  wire : list Event
}.
Arguments mkWorld {P} _ _ _.
Arguments conversationCache {P} _.
Arguments env {P} _.
Arguments wire {P} _.

(** A computation that may change the world and either throws or returns. *)
Definition M (P : Platform) (A : Type) : Type := World P -> World P * (JsError + A).

Definition ret {P A} (a : A) : M P A := fun w => (w, inr a).

Definition throw {P A} (e : JsError) : M P A := fun w => (w, inl e).

Definition bind {P A B} (m : M P A) (k : A -> M P B) : M P B :=
  fun w =>
    match m w with
    | (w', inl e) => (w', inl e)
    | (w', inr a) => k a w'
    end.

(** [try { m } catch (error) { h(error) }] *)
Definition tryCatch {P A} (m : M P A) (h : JsError -> M P A) : M P A :=
  fun w =>
    match m w with
    | (w', inl e) => h e w'
    | (w', inr a) => (w', inr a)
    end.

Declare Scope js_scope.
Delimit Scope js_scope with js.
Notation "'let*' x ':=' m 'in' k" := (bind m (fun x => k))
  (at level 10, x pattern, m at level 100, k at level 200) : js_scope.
Notation "m ';;' k" := (bind m (fun _ => k))
  (at level 100, k at level 200, right associativity) : js_scope.

Section Effects.

Context {P : Platform}.

Definition setEnv (w : World P) (e : Env P) : World P :=
  mkWorld (conversationCache w) e (wire w).

Definition setCache (w : World P) (c : gmap string ConversationCache) : World P :=
  mkWorld c (env w) (wire w).

(** An HTTP round trip: the platform answers, the request is recorded. *)
Definition http {A} (c : Call) (run : Env P -> Env P * (JsError + A)) : M P A :=
  fun w =>
    let (e', r) := run (env w) in
    let failure := match r with inl err => Some err | inr _ => None end in
    (mkWorld (conversationCache w) e' (EvHttp c failure :: wire w), r).

(** [Date.now()] *)
Definition now : M P Z :=
  fun w => let (e', t) := Date_now P (env w) in (setEnv w e', inr t).

(** [Math.random()] *)
Definition random : M P Q :=
  fun w => let (e', r) := Math_random P (env w) in (setEnv w e', inr r).

(** [await this.wait(ms)] *)
Definition wait (ms : Q) : M P unit :=
  fun w => (mkWorld (conversationCache w) (setTimeout P ms (env w)) (EvSleep ms :: wire w),
            inr tt).

Definition getCache : M P (gmap string ConversationCache) :=
  fun w => (w, inr (conversationCache w)).

Definition modifyCache
    (f : gmap string ConversationCache -> gmap string ConversationCache) : M P unit :=
  fun w => (setCache w (f (conversationCache w)), inr tt).

End Effects.

(* ===================================================================== *)
(** ** [BotpressService]                                                   *)
(* ===================================================================== *)

(** How [waitForBotResponse] left its loop. The source tells the three
    apart in its log only; [NoChange] and [Exhausted] both return [null]. *)
Inductive WaitOutcome : Type :=
| Replied (m : BotpressMessage)
| NoChange
| Exhausted.

Definition toNullable (o : WaitOutcome) : option BotpressMessage :=
  match o with
  | Replied m => Some m
  | NoChange | Exhausted => None
  end.

Section BotpressService.

Context {P : Platform}.
Local Open Scope js_scope.

Definition calculateBackoff (attempt : nat) : M P Q :=
  let* r := random in
  ret (backoffOf attempt r).

Definition clearExpiredCache : M P unit :=
  let* t := now in
  modifyCache (clearExpiredAt t).

Definition getCachedMessages (conversationId : string)
  : M P (option (list BotpressMessage)) :=
  clearExpiredCache;;
  let* m := getCache in
  let* t := now in
  ret (lookupFreshAt t conversationId m).

Definition updateCache (conversationId : string) (msgs : list BotpressMessage)
  : M P unit :=
  let* t := now in
  modifyCache (insert conversationId (freshEntry t msgs)).

Definition createUser : M P (string * BotpressUser) :=
  tryCatch (http PostUsers (http_post_users P)) throw.

Definition createConversation (userKey : string) : M P string :=
  tryCatch
    (let* r := http (PostConversations userKey) (http_post_conversations P userKey) in
     if absent r
     then throw (Err "Invalid conversation creation response")
     else ret (default "" r))
    (fun error => throw (Err ("Failed to create conversation: " ++ err_message error))).

Definition sendMessage (userKey conversationId messageText : string)
  : M P BotpressMessageResponse :=
  tryCatch
    (let* response :=
       http (PostMessages userKey conversationId messageText)
         (http_post_messages P userKey conversationId messageText) in
     modifyCache (delete conversationId);;
     ret response)
    throw.

(** A cached list, even an empty one, is truthy; [response.data.messages]
    is an array by the declared type, so the cache is always updated. *)
Definition listMessages (userKey conversationId : string) : M P MessagesResponse :=
  tryCatch
    (let* cachedMessages := getCachedMessages conversationId in
     match cachedMessages with
     | Some msgs => ret {| messages := msgs; meta := cachedMeta msgs |}
     | None =>
         let* response :=
           http (GetMessages userKey conversationId)
             (http_get_messages P userKey conversationId) in
         updateCache conversationId (messages response);;
         ret response
     end)
    throw.

(** One iteration up to and including [listMessages]. *)
Definition pollOnce (userKey conversationId : string) (i : nat) : M P MessagesResponse :=
  let* backoffTime := calculateBackoff i in
  wait backoffTime;;
  listMessages userKey conversationId.

(** The [for] loop with [n] iterations left, [i] the loop index. Besides
    the way the loop ended, the message lists it polled are returned, in
    the order they were polled, as a ghost result. *)
Fixpoint waitLoop (userKey conversationId lastMessageId : string)
    (n i : nat) (st : LoopState) : M P (WaitOutcome * list (list BotpressMessage)) :=
  match n with
  | O => ret (Exhausted, [])
  | S n' =>
      let* response := pollOnce userKey conversationId i in
      let msgs := messages response in
      match pollStep (Date_valueOf P) lastMessageId st msgs with
      | Continue st' =>
          let* rest := waitLoop userKey conversationId lastMessageId n' (S i) st' in
          ret (fst rest, msgs :: snd rest)
      | Break => ret (NoChange, [msgs])
      | Return m => ret (Replied m, [msgs])
      end
  end.

Definition waitForBotResponseRun (userKey conversationId lastMessageId : string)
  : M P (WaitOutcome * list (list BotpressMessage)) :=
  tryCatch
    (waitLoop userKey conversationId lastMessageId MAX_RETRIES 0 initialLoopState)
    throw.

Definition waitForBotResponse (userKey conversationId lastMessageId : string)
  : M P (option BotpressMessage) :=
  let* run := waitForBotResponseRun userKey conversationId lastMessageId in
  ret (toNullable (fst run)).

(** [clearConversationCache] and [clearAllCache] *)
Definition clearConversationCache (conversationId : string) : M P unit :=
  modifyCache (delete conversationId).

Definition clearAllCache : M P unit :=
  modifyCache (fun _ => ∅).

End BotpressService.

(** The earlier [BotpressService] that [src/services/botpressService.ts]
    still holds: no cache, no backoff, ten polls one second apart. *)
Module Legacy.

Section BotpressService.

Context {P : Platform}.
Local Open Scope js_scope.

Definition listMessages (userKey conversationId : string) : M P MessagesResponse :=
  tryCatch
    (http (GetMessages userKey conversationId) (http_get_messages P userKey conversationId))
    throw.

Fixpoint waitLoop (userKey conversationId lastMessageId : string) (n : nat)
  : M P (option BotpressMessage) :=
  match n with
  | O => ret None
  | S n' =>
      wait 1000;;
      let* response := listMessages userKey conversationId in
      match findSent lastMessageId (messages response) with
      | None => waitLoop userKey conversationId lastMessageId n'
      | Some lastMessage =>
          match botMessages (Date_valueOf P) lastMessageId lastMessage
                  (messages response) with
          | m :: _ => ret (Some m)
          | [] => waitLoop userKey conversationId lastMessageId n'
          end
      end
  end.

Definition waitForBotResponse (userKey conversationId lastMessageId : string)
  : M P (option BotpressMessage) :=
  tryCatch (waitLoop userKey conversationId lastMessageId 10) throw.

End BotpressService.

End Legacy.

(* ===================================================================== *)
(** ** [chatController.ts]                                                 *)
(* ===================================================================== *)

(** [req.body] and the [x-user-key] header of a chat request. *)
Record ChatRequest := {
  req_message : JsValue;
  req_userId : option string;
  req_conversationId : option string;
  req_userKey : option string
}.

Record ChatResponse := {
  cr_message : BotpressMessageResponse;
  cr_botResponse : option BotpressMessage;
  cr_conversationId : string;
  cr_isStarted : bool;
  cr_messages : list BotpressMessage;
  cr_userKey : string;
  cr_userId : option string
}.

(** The JSON bodies the controllers send. *)
Inductive Body : Type :=
| ErrorBody (error code : string)
| ChatBody (r : ChatResponse)
| ContactBody (success : bool) (text : string).

Record HttpResponse := {
  status : Z;
  body : Body
}.

Definition respond (st : Z) (b : Body) : HttpResponse := {| status := st; body := b |}.

(** [message?.substring(0, 50)], evaluated for the first log line: nothing
    for [undefined] and [null], the prefix of a string, and a [TypeError]
    for every other value, which has no [substring] method. *)
Definition logPreview (message : JsValue) : JsError + option string :=
  match message with
  | JsUndefined | JsNull => inr None
  | JsString s => inr (Some (prefix 50 s))
  | _ => inl (Err "message?.substring is not a function")
  end.

Section ChatController.

Context {P : Platform}.
Local Open Scope js_scope.

(** [try { a = await m } catch { res.status(..).json(..); return }]
    followed by [k a]. *)
Definition orRespond {A} (m : M P A) (failed : HttpResponse)
    (k : A -> M P HttpResponse) : M P HttpResponse :=
  fun w =>
    match m w with
    | (w', inl _) => (w', inr failed)
    | (w', inr a) => k a w'
    end.

(** [try { a = await m } catch { }]: the failure is swallowed and [a]
    keeps its initial value [dflt]. *)
Definition orDefault {A} (m : M P A) (dflt : A) : M P A :=
  tryCatch m (fun _ => ret dflt).

(** Get or create user *)
Definition ensureUser (req : ChatRequest) (k : string * option string -> M P HttpResponse)
  : M P HttpResponse :=
  if absent (req_userKey req) then
    orRespond createUser
      (respond 500 (ErrorBody "Failed to create user session" "USER_CREATION_FAILED"))
      (fun userResponse => k (fst userResponse, Some (user_id (snd userResponse))))
  else k (default "" (req_userKey req), req_userId req).

(** Get or create conversation *)
Definition ensureConversation (req : ChatRequest) (currentUserKey : string)
    (k : string -> M P HttpResponse) : M P HttpResponse :=
  if absent (req_conversationId req) then
    orRespond (createConversation currentUserKey)
      (respond 500 (ErrorBody "Failed to create conversation" "CONVERSATION_CREATION_FAILED"))
      k
  else k (default "" (req_conversationId req)).

(** The [try] block of [handleChatMessage]. *)
Definition handleChatMessageBody (req : ChatRequest) : M P HttpResponse :=
  let message := req_message req in
  match logPreview message with
  | inl e => throw e
  | inr _ =>
  if negb (truthy message) || negb (isString message) then
    ret (respond 400 (ErrorBody "Message is required and must be a string" "INVALID_MESSAGE"))
  else
  match message with
  | JsString text =>
    if (String.length (trim text) =? 0)%nat then
      ret (respond 400 (ErrorBody "Message cannot be empty" "EMPTY_MESSAGE"))
    else if (5000 <? String.length text)%nat then
      ret (respond 400 (ErrorBody "Message is too long (max 5000 characters)" "MESSAGE_TOO_LONG"))
    else
      ensureUser req (fun user =>
      let currentUserKey := fst user in
      let currentUserId := snd user in
      ensureConversation req currentUserKey (fun currentConversationId =>
      orRespond (sendMessage currentUserKey currentConversationId text)
        (respond 500 (ErrorBody "Failed to send message" "MESSAGE_SEND_FAILED"))
        (fun sentMessage =>
      let* botResponse :=
        orDefault
          (waitForBotResponse currentUserKey currentConversationId
             (msg_id (resp_message sentMessage)))
          None in
      let* msgs :=
        orDefault
          (let* messagesResponse := listMessages currentUserKey currentConversationId in
           ret (messages messagesResponse))
          [] in
      now;;
      ret (respond 200 (ChatBody
        {| cr_message := sentMessage;
           cr_botResponse := botResponse;
           cr_conversationId := currentConversationId;
           cr_isStarted := true;
           cr_messages := msgs;
           cr_userKey := currentUserKey;
           cr_userId := currentUserId |})))))
  | _ => ret (respond 400 (ErrorBody "Message is required and must be a string" "INVALID_MESSAGE"))
  end
  end.

(** [handleChatMessage]: the [try] block, and the outer [catch] that
    answers 500 to whatever was thrown in it. *)
Definition handleChatMessage (req : ChatRequest) (w : World P) : World P * HttpResponse :=
  match (now;; handleChatMessageBody req) w with
  | (w', inr response) => (w', response)
  | (w', inl _) =>
      (fst (now w'),
       respond 500 (ErrorBody "Failed to process message" "INTERNAL_SERVER_ERROR"))
  end.

End ChatController.

(* ===================================================================== *)
(** ** [contactService.ts] and [contactController.ts]                      *)
(* ===================================================================== *)

(** [req.body] of a contact submission. *)
Record ContactRequest := {
  contact_name : option string;
  contact_email : option string;
  contact_message : option string
}.

(** [v === true] *)
Definition isTrue (v : JsValue) : bool :=
  match v with JsBool true => true | _ => false end.

Section Contact.

Context {P : Platform}.
Local Open Scope js_scope.

Definition ContactService_sendMessage (name email message : string) : M P unit :=
  tryCatch
    (let* result := http (RelaySubmit name email message)
                      (fetch_relay P (RelaySubmit name email message)) in
     if truthy (relay_success result) then ret tt
     else throw (Err (if absent (relay_message result) then "Failed to send message"
                      else default "" (relay_message result))))
    (fun error => throw (Err ("Message sending failed: " ++ err_message error))).

Definition ContactService_validateConnection : M P bool :=
  tryCatch
    (let* result := http RelayTest (fetch_relay P RelayTest) in
     ret (isTrue (relay_success result)))
    (fun _ => ret false).

(** [ContactController.sendMessage] *)
Definition ContactController_sendMessage (req : ContactRequest) (w : World P)
  : World P * HttpResponse :=
  let attempt : M P HttpResponse :=
    if absent (contact_name req) || absent (contact_email req)
       || absent (contact_message req) then
      ret (respond 400 (ContactBody false "Missing required fields"))
    else
      let name := default "" (contact_name req) in
      let email := default "" (contact_email req) in
      let message := default "" (contact_message req) in
      if negb (regexTest emailRegex email) then
        ret (respond 400 (ContactBody false "Invalid email format"))
      else
        let* isValid := ContactService_validateConnection in
        if negb isValid then
          ret (respond 503 (ContactBody false "Service unavailable"))
        else
          ContactService_sendMessage name email message;;
          ret (respond 200 (ContactBody true "Message sent successfully"))
  in
  match attempt w with
  | (w', inr response) => (w', response)
  | (w', inl _) => (w', respond 500 (ContactBody false "Failed to send message"))
  end.

End Contact.

(* ===================================================================== *)
(** ** More of the services and the middleware                             *)
(* ===================================================================== *)

(** [arr.slice(start)] for an integer [start]: a negative [start] counts
    from the end, and the start is clamped to the array. *)
Definition slice {A : Type} (start : Z) (l : list A) : list A :=
  let len := Z.of_nat (length l) in
  let k := if start <? 0 then Z.max (len + start) 0 else Z.min start len in
  skipn (Z.to_nat k) l.

Definition DEFAULT_HISTORY_LIMIT : Z := 50.

Section History.

Context {P : Platform}.
Local Open Scope js_scope.

(** [getConversationHistory(userKey, conversationId, limit = 50)] *)
Definition getConversationHistory (userKey conversationId : string) (limit : Z)
  : M P (list BotpressMessage) :=
  tryCatch
    (let* response := listMessages userKey conversationId in
     ret (slice (- limit) (messages response)))
    throw.

End History.

(** [validateContactForm] and [isValidEmail] (the validation helper of the
    contact form). *)
Record ContactForm := {
  form_name : string;
  form_email : string;
  form_message : string
}.

Definition isValidEmail (email : string) : bool := regexTest emailRegex email.

Definition validateContactForm (data : ContactForm) : option string :=
  if String.eqb (form_name data) "" || (String.length (trim (form_name data)) <? 2)%nat
  then Some "Name must be at least 2 characters long"
  else if String.eqb (form_email data) "" || negb (isValidEmail (form_email data))
  then Some "Please provide a valid email address"
  else if String.eqb (form_message data) ""
          || (String.length (trim (form_message data)) <? 10)%nat
  then Some "Message must be at least 10 characters long"
  else None.

(** [validateChatRequest] ([src/middleware/validateRequest.ts]): either the
    request is refused with a status and an error text, or [next()] is
    called. *)
Inductive Checked : Type :=
| Refused (code : Z) (error : string)
| Next.

Definition validateChatRequest (req : ChatRequest) : Checked :=
  if absent (req_userKey req) then Refused 400 "Valid user key is required"
  else if negb (truthy (req_message req)) || negb (isString (req_message req))
  then Refused 400 "Valid message is required"
  else Next.

(** The words a regular expression matches. *)
Inductive matches : Regex -> string -> Prop :=
| MEps : matches REps ""
| MClass (p : ascii -> bool) (c : ascii) :
    p c = true -> matches (RClass p) (String c "")
| MSeq (r1 r2 : Regex) (s1 s2 : string) :
    matches r1 s1 -> matches r2 s2 -> matches (RSeq r1 r2) (s1 ++ s2)
| MAltL (r1 r2 : Regex) (s : string) : matches r1 s -> matches (RAlt r1 r2) s
| MAltR (r1 r2 : Regex) (s : string) : matches r2 s -> matches (RAlt r1 r2) s
| MStarNil (r : Regex) : matches (RStar r) ""
| MStarApp (r : Regex) (s1 s2 : string) :
    matches r s1 -> matches (RStar r) s2 -> matches (RStar r) (s1 ++ s2).

(** Every character of the string satisfies [p]. *)
Fixpoint allChars (p : ascii -> bool) (s : string) : bool :=
  match s with
  | EmptyString => true
  | String c r => p c && allChars p r
  end.

(** The shape of an address the e-mail format accepts: [a@b.c] with [a],
    [b], [c] non-empty and free of white space and of "@". *)
Definition emailShape (s : string) : Prop :=
  exists a b c : string,
    s = a ++ "@" ++ b ++ "." ++ c /\
    a <> "" /\ b <> "" /\ c <> "" /\
    allChars notSpaceNorAt a = true /\ allChars notSpaceNorAt b = true /\
    allChars notSpaceNorAt c = true.

(** The number of occurrences of a character. *)
Fixpoint countChar (c : ascii) (s : string) : nat :=
  match s with
  | EmptyString => 0
  | String x r => (if Ascii.eqb x c then 1 else 0) + countChar c r
  end.

(** What [ContactService.sendMessage] throws, by the outcome of the
    request to the relay. *)
Definition relayFailure (r : JsError + RelayResult) : option JsError :=
  match r with
  | inl e => Some (Err ("Message sending failed: " ++ err_message e))
  | inr result =>
      if truthy (relay_success result) then None
      else Some (Err ("Message sending failed: " ++
                      (if absent (relay_message result) then "Failed to send message"
                       else default "" (relay_message result))))
  end.

(** The submission a form is sent as. *)
Definition formRequest (data : ContactForm) : ContactRequest :=
  {| contact_name := Some (form_name data);
     contact_email := Some (form_email data);
     contact_message := Some (form_message data) |}.

(** A request was answered with failure [e], or not at all ([None]). *)
Definition failureOf {A : Type} (r : JsError + A) : option JsError :=
  match r with
  | inl e => Some e
  | inr _ => None
  end.

Section Stages.

Context {P : Platform}.

(** The user step of [handleChatMessage] as a computation of its own: the
    key and id of the request, or those of a user created now. *)
Definition resolveUser (req : ChatRequest) : M P (string * option string) :=
  if absent (req_userKey req) then
    bind createUser (fun userResponse =>
      ret (fst userResponse, Some (user_id (snd userResponse))))
  else ret (default "" (req_userKey req), req_userId req).

(** The conversation step, likewise. *)
Definition resolveConversation (req : ChatRequest) (currentUserKey : string)
  : M P string :=
  if absent (req_conversationId req) then createConversation currentUserKey
  else ret (default "" (req_conversationId req)).

End Stages.

(** The message of a chat request passes the validation of the handler. *)
Definition validText (text : string) : Prop :=
  trim text <> "" /\ (String.length text <= 5000)%nat.

Definition isPostUsers (e : Event) : bool :=
  match e with EvHttp PostUsers _ => true | _ => false end.

Definition isPostConversations (e : Event) : bool :=
  match e with EvHttp (PostConversations _) _ => true | _ => false end.

Definition isHttpEvent (e : Event) : bool :=
  match e with EvHttp _ _ => true | EvSleep _ => false end.

(* ===================================================================== *)
(** ** A scripted platform, to run the model on concrete inputs            *)
(* ===================================================================== *)

Module Demo.

(** The clock advances only while a timer sleeps: by the requested delay
    rounded up, plus [lag]. The chat platform answers the successive
    [GET .../messages] with the entries of [pages], and fails once they
    are used up. *)
Record Script := {
  clock : Z;
  lag : Z;
  pages : list (JsError + MessagesResponse);
  sent : JsError + BotpressMessageResponse;
  relay : JsError + RelayResult
}.

Definition nextPage (s : Script) : Script * (JsError + MessagesResponse) :=
  match pages s with
  | [] => (s, inl (Err "socket hang up"))
  | p :: rest =>
      ({| clock := clock s; lag := lag s; pages := rest; sent := sent s;
          relay := relay s |}, p)
  end.

Definition sleep (ms : Q) (s : Script) : Script :=
  {| clock := clock s + Qceiling ms + lag s; lag := lag s; pages := pages s;
     sent := sent s; relay := relay s |}.

Definition digit (c : ascii) : Z := Z.of_nat (nat_of_ascii c) - 48.

(** Dates are written as decimal millisecond counts in the examples. *)
Fixpoint decimal (acc : Z) (s : string) : option Z :=
  match s with
  | EmptyString => Some acc
  | String c r =>
      if (0 <=? digit c) && (digit c <=? 9) then decimal (10 * acc + digit c) r
      else None
  end.

Definition valueOf (s : string) : option Z :=
  match s with
  | EmptyString => None
  | _ => decimal 0 s
  end.

Lemma half_in_range (s : Script) : (0 <= snd (s, 1 # 2) /\ snd (s, 1 # 2) < 1)%Q.
Proof. simpl. split; [discriminate | reflexivity]. Qed.

Definition platform : Platform :=
  {| Env := Script;
     http_post_users := fun s =>
       (s, inr ("key-1", {| user_id := "user-1"; user_key := "key-1" |}));
     http_post_conversations := fun _ s => (s, inr (Some "conv-1"));
     http_post_messages := fun _ _ _ s => (s, sent s);
     http_get_messages := fun _ _ s => nextPage s;
     fetch_relay := fun _ s => (s, relay s);
     Date_now := fun s => (s, clock s);
     Math_random := fun s => (s, 1 # 2);
     Math_random_range := half_in_range;
     setTimeout := sleep;
     Date_valueOf := valueOf |}.

Definition message (id createdAt text : string) : BotpressMessage :=
  {| msg_id := id; msg_createdAt := createdAt; msg_conversationId := "conv-1";
     msg_userId := "user-1";
     msg_payload := {| payload_type := "text"; payload_text := text |} |}.

Definition response (msgs : list BotpressMessage) : MessagesResponse :=
  {| messages := msgs;
     meta := <["pageSize" := JsNumber 20]> (<["nextToken" := JsString "t1"]> ∅) |}.

Definition page (msgs : list BotpressMessage) : JsError + MessagesResponse :=
  inr (response msgs).

(** What [listMessages] answers from the cache. *)
Definition cached (msgs : list BotpressMessage) : MessagesResponse :=
  {| messages := msgs; meta := cachedMeta msgs |}.

Definition hello : BotpressMessage := message "m1" "1000" "Hello".
Definition older : BotpressMessage := message "m0" "900" "Hi".
Definition reply1 : BotpressMessage := message "b1" "1500" "Hi there".
Definition reply2 : BotpressMessage := message "b2" "1600" "How can I help?".

Definition script (pgs : list (JsError + MessagesResponse)) (lg : Z) : Script :=
  {| clock := 0; lag := lg; pages := pgs;
     sent := inr {| resp_message := hello |};
     relay := inr {| relay_success := JsBool true; relay_message := None |} |}.

Definition world (s : Script) : World platform :=
  @mkWorld platform ∅ s [].

Definition atClock (t : Z) (s : Script) : Script :=
  {| clock := t; lag := lag s; pages := pages s; sent := sent s; relay := relay s |}.

(** A process that cached the list [[hello]] of conversation "conv-1" at
    clock reading 0, seen at clock reading [t]. *)
Definition cachedWorld (t : Z) : World platform :=
  @mkWorld platform (<["conv-1" := freshEntry 0 [hello]]> ∅) (atClock t (script [] 0)) [].

End Demo.

(** The scripted platform under a clock that stands still. *)
Module Steady.

Definition platform : Platform :=
  {| Env := Demo.Script;
     http_post_users := http_post_users Demo.platform;
     http_post_conversations := http_post_conversations Demo.platform;
     http_post_messages := http_post_messages Demo.platform;
     http_get_messages := http_get_messages Demo.platform;
     fetch_relay := fetch_relay Demo.platform;
     Date_now := fun s => (s, 0);
     Math_random := Math_random Demo.platform;
     Math_random_range := Math_random_range Demo.platform;
     setTimeout := setTimeout Demo.platform;
     Date_valueOf := Date_valueOf Demo.platform |}.

Definition world (s : Demo.Script) : World platform :=
  @mkWorld platform ∅ s [].

End Steady.

(** A message of 4999 letters with two spaces in front. *)
Definition Demo_padded : string :=
  ("  " ++ String.concat "" (List.repeat "a" 4999))%string.

(* ===================================================================== *)
(** ** Vocabulary of the properties                                        *)
(* ===================================================================== *)

Local Open Scope list_scope.

(** Every entry carries the fixed time-to-live: the only writer of the map
    is [updateCache]. *)
Definition cacheWf (m : gmap string ConversationCache) : Prop :=
  forall k c, m !! k = Some c -> ttl c = CACHE_TTL.

Definition sleeps (evs : list Event) : nat := length (List.filter isSleep evs).

Definition gets (evs : list Event) : nat := length (List.filter isGetMessages evs).

(** An event that is not a failed request. *)
Definition quiet (ev : Event) : Prop :=
  match ev with
  | EvHttp _ (Some _) => False
  | _ => True
  end.

(** The events a poll of conversation [conversationId] may cause: a sleep
    within the backoff range, or the request for the message list. *)
Definition waiterEvent (userKey conversationId : string) (ev : Event) : Prop :=
  match ev with
  | EvSleep ms => (500 <= ms /\ ms < 3300)%Q
  | EvHttp c _ => c = GetMessages userKey conversationId
  end.

(** [a] is not created after [b], as far as both dates are valid. *)
Definition createdLe (valueOf : string -> option Z) (a b : BotpressMessage) : bool :=
  match valueOf (msg_createdAt a), valueOf (msg_createdAt b) with
  | Some x, Some y => x <=? y
  | _, _ => true
  end.

(** The list is ordered by [createdAt] ascending: no message is created
    after one that follows it. *)
Fixpoint ascending (valueOf : string -> option Z) (msgs : list BotpressMessage) : bool :=
  match msgs with
  | [] => true
  | a :: rest => forallb (createdLe valueOf a) rest && ascending valueOf rest
  end.

(** The list contains the sent message. *)
Definition found (lastMessageId : string) (msgs : list BotpressMessage) : bool :=
  match findSent lastMessageId msgs with
  | Some _ => true
  | None => false
  end.

(** The number of polled lists in which the sent message was found. *)
Definition foundCount (lastMessageId : string) (polled : list (list BotpressMessage)) : nat :=
  length (List.filter (found lastMessageId) polled).

(** The list shows no reply: the sent message is not in it, or no other
    message of it is later than the sent one. *)
Definition silent (valueOf : string -> option Z) (lastMessageId : string)
    (msgs : list BotpressMessage) : Prop :=
  match findSent lastMessageId msgs with
  | Some lastMessage => botMessages valueOf lastMessageId lastMessage msgs = []
  | None => True
  end.

(** The found lists of a run that ended by the no-change exit: either all
    of them have the length the loop started with, and with the count it
    started with they make three; or the last four have one length. *)
Definition endsInStreak (count0 noChange0 : nat) (F : list (list BotpressMessage)) : Prop :=
  (Forall (fun msgs => length msgs = count0) F /\ (3 <= noChange0 + length F)%nat) \/
  (exists pre streak c,
      F = pre ++ streak /\ length streak = 4%nat /\
      Forall (fun msgs => length msgs = c) streak).

(** C2 as the specification states it: whenever a polled list is in
    ascending order, contains the sent message and has another message
    later than it, the waiter returns the earliest such message. *)
Definition C2_as_stated : Prop :=
  forall (P : Platform) (w w' : World P) (userKey conversationId lastMessageId : string)
         out polled msgs lastMessage,
    waitForBotResponseRun userKey conversationId lastMessageId w =
      (w', inr (out, polled)) ->
    In msgs polled ->
    ascending (Date_valueOf P) msgs = true ->
    findSent lastMessageId msgs = Some lastMessage ->
    botMessages (Date_valueOf P) lastMessageId lastMessage msgs <> [] ->
    exists m, out = Replied m /\
              head (botMessages (Date_valueOf P) lastMessageId lastMessage msgs) = Some m.

(** A run that refutes it: the cache is empty (as after a send), every
    timer fires five minutes late so that each poll misses the cache, and
    the chat platform answers with a window of two messages: three times
    the sent message after an older one, then the sent message followed by
    the reply. *)
Definition C2_run : World Demo.platform :=
  Demo.world
    (Demo.script
       [Demo.page [Demo.older; Demo.hello]; Demo.page [Demo.older; Demo.hello];
        Demo.page [Demo.older; Demo.hello]; Demo.page [Demo.hello; Demo.reply1]]
       300000).

(** C8 as the specification states it: whenever the e-mail does not match
    the format ([undefined] is tested as the string "undefined"), the
    answer is 400 with the error about the e-mail, and the relay is not
    called. *)
Definition C8_as_stated : Prop :=
  forall (P : Platform) (req : ContactRequest) (w : World P),
    regexTest emailRegex (default "undefined" (contact_email req)) = false ->
    snd (ContactController_sendMessage req w) =
      respond 400 (ContactBody false "Invalid email format") /\
    wire (fst (ContactController_sendMessage req w)) = wire w.

(** A submission with the e-mail "not-an-email" and no name. *)
Definition C8_request : ContactRequest :=
  {| contact_name := None; contact_email := Some "not-an-email";
     contact_message := Some "Hello there" |}.

(** A sleep within the range of the backoff. *)
Definition sleepOk (ev : Event) : Prop :=
  match ev with
  | EvSleep ms => (500 <= ms /\ ms < 3300)%Q
  | EvHttp _ _ => True
  end.

(** From [w] to [w'] at most [s] sleeps, all within the backoff range, and
    at most [h] requests happened. *)
Definition within {P : Platform} (s h : nat) (w w' : World P) : Prop :=
  exists evs : list Event,
    wire w' = (evs ++ wire w)%list /\
    (sleeps evs <= s)%nat /\ (length (List.filter isHttpEvent evs) <= h)%nat /\
    Forall sleepOk evs.

(** The clock of the platform stays within a window shorter than the
    time-to-live of the cache, whatever the state of the collaborators. *)
Definition steadyClock (P : Platform) (lo : Z) : Prop :=
  forall e : Env P, lo <= snd (Date_now P e) /\ snd (Date_now P e) < lo + CACHE_TTL.

(** The cache of [w] holds the list [msgs] for the conversation, written
    with the fixed time-to-live at a clock reading of at least [lo]. *)
Definition holds {P : Platform} (lo : Z) (conversationId : string)
    (msgs : list BotpressMessage) (w : World P) : Prop :=
  exists entry,
    conversationCache w !! conversationId = Some entry /\
    cache_messages entry = msgs /\ ttl entry = CACHE_TTL /\ lo <= lastUpdated entry.

(** An event of the earlier waiter: a sleep of one second, or a request
    for the message list. *)
Definition legacyEvent (userKey conversationId : string) (ev : Event) : Prop :=
  ev = EvSleep 1000 \/ exists f, ev = EvHttp (GetMessages userKey conversationId) f.

(* ===================================================================== *)
(** * Properties                                                           *)
(* ===================================================================== *)

(** ** Strings *)

Lemma trimEnd_length (s : string) : (String.length (trimEnd s) <= String.length s)%nat.
Proof.
  induction s as [|c r IH]; simpl; [lia|].
  destruct (trimEnd r) as [|c' r'] eqn:E.
  - destruct (isWhiteSpace c); simpl; lia.
  - simpl in *. lia.
Qed.

Lemma trimStart_length (s : string) : (String.length (trimStart s) <= String.length s)%nat.
Proof.
  induction s as [|c r IH]; simpl; [lia|].
  destruct (isWhiteSpace c); simpl; lia.
Qed.

Lemma trim_length (s : string) : (String.length (trim s) <= String.length s)%nat.
Proof.
  unfold trim. pose proof (trimEnd_length (trimStart s)).
  pose proof (trimStart_length s). lia.
Qed.

(** ** Backoff *)

Lemma pow_three_halves_ge_1 (k : nat) : (1 <= (3 # 2) ^ Z.of_nat k)%Q.
Proof.
  induction k as [|k IH].
  - simpl. lra.
  - rewrite Nat2Z.inj_succ, <- Z.add_1_r.
    rewrite Qpower_plus by (intro H; discriminate H).
    change ((3 # 2) ^ 1)%Q with (3 # 2)%Q. lra.
Qed.

Lemma exponentialOf_small (i : nat) :
  (i <= 4)%nat -> (exponentialOf i == 500 * (3 # 2) ^ Z.of_nat i)%Q.
Proof.
  intros Hi. unfold exponentialOf, INITIAL_WAIT, MAX_WAIT.
  apply Q.min_l.
  do 5 (destruct i as [|i]; [vm_compute; discriminate|]). lia.
Qed.

Lemma exponentialOf_capped (i : nat) :
  (5 <= i)%nat -> (exponentialOf i == 3000)%Q.
Proof.
  intros Hi. unfold exponentialOf, INITIAL_WAIT, MAX_WAIT.
  apply Q.min_r.
  replace i with (5 + (i - 5))%nat by lia.
  rewrite Nat2Z.inj_add, Qpower_plus by (intro H; discriminate H).
  pose proof (pow_three_halves_ge_1 (i - 5)) as H1.
  change ((3 # 2) ^ Z.of_nat 5)%Q with (243 # 32)%Q.
  nra.
Qed.

Lemma exponentialOf_range (i : nat) : (500 <= exponentialOf i /\ exponentialOf i <= 3000)%Q.
Proof.
  unfold exponentialOf, INITIAL_WAIT, MAX_WAIT. split.
  - apply Q.min_glb; [|discriminate].
    pose proof (pow_three_halves_ge_1 i). nra.
  - apply Q.le_min_r.
Qed.

Lemma backoffOf_bounds (i : nat) (r : Q) :
  (0 <= r)%Q -> (r < 1)%Q ->
  (exponentialOf i <= backoffOf i r)%Q /\ (backoffOf i r < exponentialOf i * (11 # 10))%Q.
Proof.
  intros H0 H1. unfold backoffOf.
  pose proof (exponentialOf_range i) as [HE _]. cbv zeta.
  split; nra.
Qed.

Lemma backoffOf_range (i : nat) (r : Q) :
  (0 <= r)%Q -> (r < 1)%Q -> (500 <= backoffOf i r /\ backoffOf i r < 3300)%Q.
Proof.
  intros H0 H1.
  pose proof (backoffOf_bounds i r H0 H1) as [Hlo Hhi].
  pose proof (exponentialOf_range i) as [HE1 HE2].
  split; lra.
Qed.

(** ** The conversation cache *)

Lemma cacheWf_empty : cacheWf ∅.
Proof. intros k c H. rewrite lookup_empty in H. discriminate. Qed.

Lemma cacheWf_insert m k now msgs :
  cacheWf m -> cacheWf (<[k := freshEntry now msgs]> m).
Proof.
  intros Hm k' c H. destruct (decide (k = k')) as [->|Hne].
  - rewrite lookup_insert_eq in H. inversion H; subst. reflexivity.
  - rewrite lookup_insert_ne in H by done. eauto.
Qed.

Lemma cacheWf_delete m k : cacheWf m -> cacheWf (delete k m).
Proof.
  intros Hm k' c H. destruct (decide (k = k')) as [->|Hne].
  - rewrite lookup_delete_eq in H. discriminate.
  - rewrite lookup_delete_ne in H by done. eauto.
Qed.

Lemma clearExpiredAt_lookup now m k c :
  clearExpiredAt now m !! k = Some c <->
  m !! k = Some c /\ now - lastUpdated c <= ttl c.
Proof. unfold clearExpiredAt. rewrite map_lookup_filter_Some. reflexivity. Qed.

Lemma clearExpiredAt_None now m k :
  m !! k = None -> clearExpiredAt now m !! k = None.
Proof.
  intros H. destruct (clearExpiredAt now m !! k) as [c|] eqn:E; [|done].
  apply clearExpiredAt_lookup in E as [E _]. congruence.
Qed.

Lemma cacheWf_clearExpired now m : cacheWf m -> cacheWf (clearExpiredAt now m).
Proof. intros Hm k c H. apply clearExpiredAt_lookup in H as [H _]. eauto. Qed.

Lemma lookupFreshAt_Some now k m msgs :
  lookupFreshAt now k m = Some msgs <->
  exists c, m !! k = Some c /\ cache_messages c = msgs /\ now - lastUpdated c < ttl c.
Proof.
  unfold lookupFreshAt. destruct (m !! k) as [c|].
  - destruct (Z.ltb_spec (now - lastUpdated c) (ttl c)); split.
    + intros [= <-]. eauto.
    + intros (c' & [= <-] & <- & _). reflexivity.
    + discriminate.
    + intros (c' & [= <-] & _ & Hlt). lia.
  - split; [discriminate | intros (c & H & _); discriminate].
Qed.

Section CacheFacts.

Context {P : Platform}.

(** [getCachedMessages] reads the clock twice: for the eviction, and for
    the freshness test of the entry it looked up. *)
Lemma getCachedMessages_eq (conversationId : string) (w : World P) :
  getCachedMessages conversationId w =
  let d1 := Date_now P (env w) in
  let d2 := Date_now P (fst d1) in
  let m := clearExpiredAt (snd d1) (conversationCache w) in
  (mkWorld m (fst d2) (wire w), inr (lookupFreshAt (snd d2) conversationId m)).
Proof.
  unfold getCachedMessages, clearExpiredCache, bind, now, modifyCache, getCache, ret,
    setEnv, setCache.
  destruct w as [c e tr]; simpl.
  destruct (Date_now P e) as [e1 t1]; simpl.
  destruct (Date_now P e1) as [e2 t2]; simpl. reflexivity.
Qed.

Lemma sendMessage_ok (userKey conversationId text : string) (w w' : World P) response :
  sendMessage userKey conversationId text w = (w', inr response) ->
  conversationCache w' = delete conversationId (conversationCache w) /\
  wire w' = EvHttp (PostMessages userKey conversationId text) None :: wire w.
Proof.
  unfold sendMessage, tryCatch, bind, http, modifyCache, ret, throw, setCache.
  destruct w as [c e tr]; simpl.
  destruct (http_post_messages P userKey conversationId text e) as [e1 [err|r]]; simpl.
  - discriminate.
  - intros [= <- <-]. simpl. auto.
Qed.

(** The operations of the service keep the invariant. *)
Lemma cacheWf_getCachedMessages (conversationId : string) (w : World P) :
  cacheWf (conversationCache w) ->
  cacheWf (conversationCache (fst (getCachedMessages conversationId w))).
Proof.
  intros H. rewrite getCachedMessages_eq. cbv zeta. simpl.
  apply cacheWf_clearExpired, H.
Qed.

Lemma cacheWf_listMessages (userKey conversationId : string) (w : World P) :
  cacheWf (conversationCache w) ->
  cacheWf (conversationCache (fst (listMessages userKey conversationId w))).
Proof.
  intros H. unfold listMessages, tryCatch, bind. rewrite getCachedMessages_eq. cbv zeta.
  destruct (lookupFreshAt _ _ _) as [msgs|].
  - simpl. apply cacheWf_clearExpired, H.
  - unfold http, updateCache, bind, now, modifyCache, ret, throw, setEnv, setCache. simpl.
    destruct (http_get_messages P _ _ _) as [e1 [err|response]]; simpl.
    + apply cacheWf_clearExpired, H.
    + destruct (Date_now P e1) as [e2 t]. simpl.
      apply cacheWf_insert, cacheWf_clearExpired, H.
Qed.

Lemma cacheWf_sendMessage (userKey conversationId text : string) (w : World P) :
  cacheWf (conversationCache w) ->
  cacheWf (conversationCache (fst (sendMessage userKey conversationId text w))).
Proof.
  intros H. unfold sendMessage, tryCatch, bind, http, modifyCache, ret, throw, setCache.
  destruct (http_post_messages P userKey conversationId text (env w)) as [e1 [err|r]];
    simpl; [exact H | apply cacheWf_delete, H].
Qed.

End CacheFacts.

(** ** What the waiter does on the wire *)

Section WaiterFacts.

Context {P : Platform}.
Variables userKey conversationId lastMessageId : string.

Lemma listMessages_wire (w w' : World P) r :
  listMessages userKey conversationId w = (w', r) ->
  (wire w' = wire w /\ exists response, r = inr response) \/
  (wire w' = EvHttp (GetMessages userKey conversationId) None :: wire w /\
   exists response, r = inr response) \/
  (exists e, wire w' = EvHttp (GetMessages userKey conversationId) (Some e) :: wire w /\
             r = inl e).
Proof.
  unfold listMessages, tryCatch, bind. rewrite getCachedMessages_eq. cbv zeta.
  destruct (lookupFreshAt _ _ _) as [msgs|].
  - unfold ret. intros [= <- <-]. left. simpl. eauto.
  - unfold http, updateCache, bind, now, modifyCache, ret, throw, setEnv, setCache. simpl.
    destruct (http_get_messages P _ _ _) as [e1 [err|response]]; simpl.
    + intros [= <- <-]. right; right. simpl. eauto.
    + destruct (Date_now P e1) as [e2 t]. simpl.
      intros [= <- <-]. right; left. simpl. eauto.
Qed.

Lemma pollOnce_wire (i : nat) (w w' : World P) r :
  pollOnce userKey conversationId i w = (w', r) ->
  exists ms, (500 <= ms /\ ms < 3300)%Q /\
    ((wire w' = EvSleep ms :: wire w /\ exists response, r = inr response) \/
     (wire w' = EvHttp (GetMessages userKey conversationId) None :: EvSleep ms :: wire w /\
      exists response, r = inr response) \/
     (exists e, wire w' = EvHttp (GetMessages userKey conversationId) (Some e)
                            :: EvSleep ms :: wire w /\ r = inl e)).
Proof.
  unfold pollOnce, calculateBackoff, bind, random, ret, wait, setEnv.
  pose proof (Math_random_range P (env w)) as [Hr0 Hr1].
  destruct (Math_random P (env w)) as [e1 rnd]. simpl in Hr0, Hr1. simpl.
  intros H. exists (backoffOf i rnd). split; [apply backoffOf_range; assumption|].
  apply listMessages_wire in H. simpl in H. exact H.
Qed.

Lemma waitLoop_S (n i : nat) (st : LoopState) (w : World P) :
  waitLoop userKey conversationId lastMessageId (S n) i st w =
  match pollOnce userKey conversationId i w with
  | (w1, inl e) => (w1, inl e)
  | (w1, inr response) =>
      match pollStep (Date_valueOf P) lastMessageId st (messages response) with
      | Continue st' =>
          match waitLoop userKey conversationId lastMessageId n (S i) st' w1 with
          | (w2, inl e) => (w2, inl e)
          | (w2, inr rest) => (w2, inr (fst rest, messages response :: snd rest))
          end
      | Break => (w1, inr (NoChange, [messages response]))
      | Return m => (w1, inr (Replied m, [messages response]))
      end
  end.
Proof.
  simpl. unfold bind at 1.
  destruct (pollOnce userKey conversationId i w) as [w1 [e|response]]; [reflexivity|].
  destruct (pollStep _ _ _ _); reflexivity.
Qed.

(** The events of a run of the loop with [n] iterations left. *)
Lemma waitLoop_wire (n : nat) : forall (i : nat) (st : LoopState) (w w' : World P) r,
  waitLoop userKey conversationId lastMessageId n i st w = (w', r) ->
  exists evs,
    wire w' = evs ++ wire w /\
    (sleeps evs <= n)%nat /\ (gets evs <= sleeps evs)%nat /\
    Forall (waiterEvent userKey conversationId) evs /\
    match r with
    | inl e => exists rest,
        evs = EvHttp (GetMessages userKey conversationId) (Some e) :: rest /\
        Forall quiet rest
    | inr run => Forall quiet evs /\ sleeps evs = length (snd run)
    end.
Proof.
  induction n as [|n IH]; intros i st w w' r H.
  - simpl in H. unfold ret in H. injection H as <- <-.
    exists []. simpl. repeat split; auto.
  - rewrite waitLoop_S in H.
    destruct (pollOnce userKey conversationId i w) as [w1 r1] eqn:Hp.
    apply pollOnce_wire in Hp as (ms & Hms & Hp).
    assert (Hstep : exists evs1,
               wire w1 = evs1 ++ wire w /\ sleeps evs1 = 1%nat /\ (gets evs1 <= 1)%nat /\
               Forall (waiterEvent userKey conversationId) evs1 /\
               match r1 with
               | inl e => exists rest,
                   evs1 = EvHttp (GetMessages userKey conversationId) (Some e) :: rest /\
                   Forall quiet rest
               | inr _ => Forall quiet evs1
               end).
    { destruct Hp as [[Hw [resp ->]] | [[Hw [resp ->]] | (e & Hw & ->)]].
      - exists [EvSleep ms]. simpl. repeat split; auto.
        repeat constructor; simpl; tauto.
      - exists [EvHttp (GetMessages userKey conversationId) None; EvSleep ms].
        simpl. repeat split; auto; repeat constructor; simpl; tauto.
      - exists [EvHttp (GetMessages userKey conversationId) (Some e); EvSleep ms].
        simpl. repeat split; auto; try (repeat constructor; simpl; tauto).
        eexists. split; [reflexivity|]. repeat constructor. }
    clear Hp. destruct Hstep as (evs1 & Hw1 & Hs1 & Hg1 & Hev1 & Hr1).
    destruct r1 as [e|response].
    + injection H as <- <-. exists evs1. repeat split; auto; lia.
    + destruct (pollStep _ _ _ _) as [st'| |m].
      * destruct (waitLoop _ _ _ n (S i) st' w1) as [w2 r2] eqn:Hrec.
        apply IH in Hrec as (evs2 & Hw2 & Hs2 & Hg2 & Hev2 & Hr2).
        assert (Hcat : wire w2 = (evs2 ++ evs1) ++ wire w)
          by (rewrite Hw2, Hw1, app_assoc; reflexivity).
        assert (Hsl : sleeps (evs2 ++ evs1) = (sleeps evs2 + sleeps evs1)%nat)
          by (unfold sleeps; rewrite List.filter_app, length_app; reflexivity).
        assert (Hge : gets (evs2 ++ evs1) = (gets evs2 + gets evs1)%nat)
          by (unfold gets; rewrite List.filter_app, length_app; reflexivity).
        destruct r2 as [e|rest]; injection H as <- <-;
          exists (evs2 ++ evs1); (split; [exact Hcat|]);
          (split; [lia|]); (split; [lia|]);
          (split; [apply Forall_app; auto|]).
        -- destruct Hr2 as (rest & -> & Hq). exists (rest ++ evs1).
           split; [reflexivity|]. apply Forall_app; auto.
        -- destruct Hr2 as [Hq Hlen]. split; [apply Forall_app; auto|].
           simpl. lia.
      * injection H as <- <-. exists evs1. repeat split; auto; simpl; lia.
      * injection H as <- <-. exists evs1. repeat split; auto; simpl; lia.
Qed.

Lemma waitForBotResponseRun_eq (w : World P) :
  waitForBotResponseRun userKey conversationId lastMessageId w =
  waitLoop userKey conversationId lastMessageId MAX_RETRIES 0 initialLoopState w.
Proof.
  unfold waitForBotResponseRun, tryCatch, throw.
  destruct (waitLoop _ _ _ _ _ _ _) as [w' [e|r]]; reflexivity.
Qed.

Lemma waitForBotResponse_eq (w : World P) :
  waitForBotResponse userKey conversationId lastMessageId w =
  match waitForBotResponseRun userKey conversationId lastMessageId w with
  | (w', inl e) => (w', inl e)
  | (w', inr run) => (w', inr (toNullable (fst run)))
  end.
Proof. reflexivity. Qed.

End WaiterFacts.

(** ** One iteration and whole runs of the waiter *)

Lemma findSent_nonempty (lastMessageId : string) (msgs : list BotpressMessage) m :
  findSent lastMessageId msgs = Some m -> (length msgs <> 0)%nat.
Proof. destruct msgs; [discriminate | simpl; lia]. Qed.

Lemma found_nonempty (lastMessageId : string) (msgs : list BotpressMessage) :
  found lastMessageId msgs = true -> (length msgs <> 0)%nat.
Proof.
  unfold found. destruct (findSent lastMessageId msgs) eqn:E; [|discriminate].
  intros _. eapply findSent_nonempty; eauto.
Qed.

Section StepFacts.

Variable valueOf : string -> option Z.
Variable lastMessageId : string.

(** The ways an iteration can end, read off [pollStep]. *)
Lemma pollStep_cases (st : LoopState) (msgs : list BotpressMessage) :
  match pollStep valueOf lastMessageId st msgs with
  | Continue st' =>
      silent valueOf lastMessageId msgs /\
      ((found lastMessageId msgs = false /\ st' = st) \/
       (found lastMessageId msgs = true /\
        length msgs = lastKnownMessageCount st /\ (S (noChangeCount st) < 3)%nat /\
        st' = {| lastKnownMessageCount := lastKnownMessageCount st;
                 noChangeCount := S (noChangeCount st) |}) \/
       (found lastMessageId msgs = true /\
        length msgs <> lastKnownMessageCount st /\
        st' = {| lastKnownMessageCount := length msgs; noChangeCount := 0 |}))
  | Break =>
      found lastMessageId msgs = true /\
      length msgs = lastKnownMessageCount st /\ (3 <= S (noChangeCount st))%nat
  | Return m =>
      exists lastMessage rest,
        findSent lastMessageId msgs = Some lastMessage /\
        botMessages valueOf lastMessageId lastMessage msgs = m :: rest
  end.
Proof.
  unfold pollStep, silent, found, selectReply, MAX_NO_CHANGE_ATTEMPTS.
  destruct (findSent lastMessageId msgs) as [lastMessage|] eqn:Hf; [|auto].
  destruct (Nat.eqb_spec (length msgs) (lastKnownMessageCount st)) as [Heq|Hne].
  - destruct (Nat.leb_spec 3 (S (noChangeCount st))) as [Hge|Hlt].
    + auto.
    + destruct (botMessages _ _ _ _) as [|m rest] eqn:Hb.
      * split; [reflexivity|]. right; left. auto.
      * eauto.
  - destruct (botMessages _ _ _ _) as [|m rest] eqn:Hb.
    + split; [reflexivity|]. right; right. auto.
    + eauto.
Qed.

Lemma createdLe_refl (m : BotpressMessage) : createdLe valueOf m m = true.
Proof.
  unfold createdLe. destruct (valueOf (msg_createdAt m)); [|reflexivity].
  apply Z.leb_refl.
Qed.

(** In an ascending list, the first message a filter keeps is not created
    after any other message the filter keeps. *)
Lemma filter_head_least (f : BotpressMessage -> bool) (msgs : list BotpressMessage) :
  forall m rest,
    ascending valueOf msgs = true ->
    List.filter f msgs = m :: rest ->
    forall m', In m' (m :: rest) -> createdLe valueOf m m' = true.
Proof.
  induction msgs as [|a msgs IH]; intros m rest Hasc Hfil m' Hin; [discriminate|].
  simpl in Hasc. apply andb_true_iff in Hasc as [Ha Hrest].
  simpl in Hfil. destruct (f a).
  - injection Hfil as -> <-. destruct Hin as [<-|Hin]; [apply createdLe_refl|].
    rewrite forallb_forall in Ha. apply Ha.
    apply List.filter_In in Hin. tauto.
  - eapply IH; eauto.
Qed.

(** The reply [selectReply] picks is a message of the list other than the
    sent one, later than it, and the earliest of those. *)
Lemma botMessages_head_earliest (lastMessage : BotpressMessage)
    (msgs : list BotpressMessage) m rest :
  ascending valueOf msgs = true ->
  botMessages valueOf lastMessageId lastMessage msgs = m :: rest ->
  In m msgs /\ msg_id m <> lastMessageId /\
  exists t0 t,
    valueOf (msg_createdAt lastMessage) = Some t0 /\
    valueOf (msg_createdAt m) = Some t /\ t0 < t /\
    forall m', In m' (botMessages valueOf lastMessageId lastMessage msgs) ->
      exists t', valueOf (msg_createdAt m') = Some t' /\ t0 < t' /\ t <= t'.
Proof.
  intros Hasc Hb.
  assert (Hq : forall m', In m' (botMessages valueOf lastMessageId lastMessage msgs) ->
             In m' msgs /\ msg_id m' <> lastMessageId /\
             exists t0 t', valueOf (msg_createdAt lastMessage) = Some t0 /\
                           valueOf (msg_createdAt m') = Some t' /\ t0 < t').
  { intros m' Hin. unfold botMessages in Hin. apply List.filter_In in Hin as [Hin Hq].
    apply andb_true_iff in Hq as [Hid Hlater]. split; [exact Hin|]. split.
    - intros Heq. rewrite Heq, String.eqb_refl in Hid. discriminate.
    - unfold laterThan in Hlater.
      destruct (valueOf (msg_createdAt m')) as [t'|]; [|discriminate].
      destruct (valueOf (msg_createdAt lastMessage)) as [t0|]; [|discriminate].
      exists t0, t'. repeat split. apply Z.ltb_lt. exact Hlater. }
  destruct (Hq m) as (Hin & Hid & t0 & t & Ht0 & Ht & Hlt); [rewrite Hb; left; reflexivity|].
  split; [exact Hin|]. split; [exact Hid|].
  exists t0, t. repeat split; auto.
  intros m' Hin'. destruct (Hq m' Hin') as (_ & _ & t0' & t' & Ht0' & Ht' & Hlt').
  rewrite Ht0 in Ht0'. injection Ht0' as <-.
  exists t'. repeat split; auto.
  pose proof (filter_head_least _ msgs m rest Hasc Hb m') as Hle.
  rewrite Hb in Hin'. specialize (Hle Hin').
  unfold createdLe in Hle. rewrite Ht, Ht' in Hle. apply Z.leb_le. exact Hle.
Qed.

End StepFacts.

Section RunFacts.

Context {P : Platform}.
Variables userKey conversationId lastMessageId : string.

Local Abbreviation runLoop := (waitLoop (P:=P) userKey conversationId lastMessageId).
Local Abbreviation isSilent := (silent (Date_valueOf P) lastMessageId).

(** The shape of the polled lists, by the way the loop ended: only the
    last list polled can show a reply. *)
Lemma waitLoop_polled (n : nat) :
  forall (i : nat) (st : LoopState) (w w' : World P) out polled,
    runLoop n i st w = (w', inr (out, polled)) ->
    (length polled <= n)%nat /\
    match out with
    | Exhausted => length polled = n /\ Forall isSilent polled
    | NoChange =>
        exists pre msgs, polled = pre ++ [msgs] /\ Forall isSilent pre /\
                         found lastMessageId msgs = true
    | Replied m =>
        exists pre msgs lastMessage rest,
          polled = pre ++ [msgs] /\ Forall isSilent pre /\
          findSent lastMessageId msgs = Some lastMessage /\
          botMessages (Date_valueOf P) lastMessageId lastMessage msgs = m :: rest
    end.
Proof.
  induction n as [|n IH]; intros i st w w' out polled H.
  - simpl in H. unfold ret in H. injection H as <- <- <-. simpl. auto.
  - rewrite waitLoop_S in H.
    destruct (pollOnce userKey conversationId i w) as [w1 [e|response]]; [discriminate|].
    pose proof (pollStep_cases (Date_valueOf P) lastMessageId st (messages response)) as Hc.
    destruct (pollStep _ _ _ _) as [st'| |m].
    + destruct Hc as [Hsil _].
      destruct (runLoop n (S i) st' w1) as [w2 [e|[out' polled']]] eqn:Hrec; [discriminate|].
      injection H as <- <- <-. simpl.
      apply IH in Hrec as [Hlen Hout]. split; [lia|].
      destruct out' as [m| |].
      * destruct Hout as (pre & msgs & lastMessage & rest & -> & Hpre & Hf & Hb).
        exists (messages response :: pre), msgs, lastMessage, rest. auto.
      * destruct Hout as (pre & msgs & -> & Hpre & Hf).
        exists (messages response :: pre), msgs. auto.
      * destruct Hout as [Hl Hall]. split; [lia | auto].
    + injection H as <- <- <-. simpl. split; [lia|].
      destruct Hc as (Hf & _ & _). exists [], (messages response). simpl. auto.
    + injection H as <- <- <-. simpl. split; [lia|].
      destruct Hc as (lastMessage & rest & Hf & Hb).
      exists [], (messages response), lastMessage, rest. auto.
Qed.

Lemma streak_suffix (c : nat) (F : list (list BotpressMessage)) :
  Forall (fun msgs => length msgs = c) F -> (4 <= length F)%nat ->
  exists pre streak,
    F = pre ++ streak /\ length streak = 4%nat /\
    Forall (fun msgs => length msgs = c) streak.
Proof.
  intros Hall Hlen.
  exists (firstn (length F - 4) F), (skipn (length F - 4) F).
  split; [symmetry; apply firstn_skipn|].
  split; [rewrite length_skipn; lia|].
  rewrite <- (firstn_skipn (length F - 4) F) in Hall.
  apply Forall_app in Hall. tauto.
Qed.

Lemma waitLoop_noChange_streak (n : nat) :
  forall (i : nat) (st : LoopState) (w w' : World P) polled,
    runLoop n i st w = (w', inr (NoChange, polled)) ->
    endsInStreak (lastKnownMessageCount st) (noChangeCount st)
      (List.filter (found lastMessageId) polled).
Proof.
  induction n as [|n IH]; intros i st w w' polled H.
  - simpl in H. discriminate.
  - rewrite waitLoop_S in H.
    destruct (pollOnce userKey conversationId i w) as [w1 [e|response]]; [discriminate|].
    pose proof (pollStep_cases (Date_valueOf P) lastMessageId st (messages response)) as Hc.
    destruct (pollStep _ _ _ _) as [st'| |m].
    + destruct (runLoop n (S i) st' w1) as [w2 [e|[out' polled']]] eqn:Hrec; [discriminate|].
      injection H as <- -> <-. apply IH in Hrec. simpl.
      destruct Hc as [_ [[Hnf ->] | [(Hf & Hlen & Hlt & ->) | (Hf & Hne & ->)]]].
      * rewrite Hnf. exact Hrec.
      * rewrite Hf. simpl in Hrec.
        destruct Hrec as [[Hall Hthree] | (pre & streak & c & -> & Hfour & Hall)].
        -- left. split; [constructor; auto | simpl; lia].
        -- right. exists (messages response :: pre), streak, c. auto.
      * rewrite Hf. simpl in Hrec. right.
        destruct Hrec as [[Hall Hthree] | (pre & streak & c & -> & Hfour & Hall)].
        -- assert (Hall' : Forall (fun msgs => length msgs = length (messages response))
                             (messages response
                                :: List.filter (found lastMessageId) polled'))
             by (constructor; auto).
           destruct (streak_suffix _ _ Hall') as (pre & streak & Heq & Hfour & Hs);
             [simpl; lia|].
           exists pre, streak, (length (messages response)). auto.
        -- exists (messages response :: pre), streak, c. auto.
    + injection H as <- <-. destruct Hc as (Hf & Hlen & Hge). simpl. rewrite Hf.
      left. split; [repeat constructor; exact Hlen | simpl; lia].
    + discriminate.
Qed.

(** A whole run that ended by the no-change exit found the sent message
    in at least four polls, and the last four such polls returned lists of
    one length. *)
Lemma run_noChange_streak (w w' : World P) polled :
  waitForBotResponseRun userKey conversationId lastMessageId w =
    (w', inr (NoChange, polled)) ->
  exists pre streak c,
    List.filter (found lastMessageId) polled = pre ++ streak /\
    length streak = 4%nat /\ Forall (fun msgs => length msgs = c) streak.
Proof.
  rewrite waitForBotResponseRun_eq. intros H.
  apply waitLoop_noChange_streak in H. simpl in H.
  destruct H as [[Hall Hthree] | H]; [|exact H].
  exfalso.
  destruct (List.filter (found lastMessageId) polled) as [|msgs F] eqn:E;
    [simpl in Hthree; lia|].
  assert (Hin : In msgs (List.filter (found lastMessageId) polled))
    by (rewrite E; left; reflexivity).
  apply List.filter_In in Hin as [_ Hf]. apply found_nonempty in Hf.
  apply Forall_inv in Hall. lia.
Qed.

End RunFacts.

(** The earlier waiter sleeps at most ten times. *)
Lemma Legacy_waitLoop_sleeps (P : Platform) (userKey conversationId lastMessageId : string)
    (n : nat) : forall (w : World P),
  exists evs,
    wire (fst (Legacy.waitLoop userKey conversationId lastMessageId n w)) = evs ++ wire w /\
    (sleeps evs <= n)%nat.
Proof.
  induction n as [|n IH]; intros w.
  - exists []. simpl. auto.
  - simpl. unfold bind at 1. unfold wait at 1. unfold bind at 1.
    unfold Legacy.listMessages at 1. unfold tryCatch, http, throw. simpl.
    destruct (http_get_messages P userKey conversationId _) as [e1 [err|response]]; simpl.
    + eexists [_; _]. simpl. split; [reflexivity|]. unfold sleeps. simpl. lia.
    + set (w1 := mkWorld _ _ _).
      assert (Hw1 : wire w1 = [EvHttp (GetMessages userKey conversationId) None;
                               EvSleep 1000] ++ wire w) by reflexivity.
      assert (Hrec : exists evs,
                 wire (fst (Legacy.waitLoop userKey conversationId lastMessageId n w1)) =
                   evs ++ wire w /\ (sleeps evs <= S n)%nat).
      { destruct (IH w1) as (evs & He & Hs). rewrite Hw1, app_assoc in He.
        eexists. split; [exact He|]. unfold sleeps in *.
        rewrite List.filter_app, length_app. simpl. lia. }
      destruct (findSent lastMessageId (messages response)) as [lastMessage|];
        [|exact Hrec].
      destruct (botMessages _ _ _ _); [exact Hrec|].
      unfold ret. simpl. eexists. split; [exact Hw1|]. unfold sleeps. simpl. lia.
Qed.

Section StopFacts.

Context {P : Platform}.
Variables userKey conversationId lastMessageId : string.

Lemma pollStep_unchanged (st : LoopState) (msgs : list BotpressMessage) :
  found lastMessageId msgs = true ->
  length msgs = lastKnownMessageCount st ->
  silent (Date_valueOf P) lastMessageId msgs ->
  (noChangeCount st < 2)%nat ->
  pollStep (Date_valueOf P) lastMessageId st msgs =
    Continue {| lastKnownMessageCount := lastKnownMessageCount st;
                noChangeCount := S (noChangeCount st) |}.
Proof.
  unfold found, silent, pollStep, selectReply, MAX_NO_CHANGE_ATTEMPTS.
  destruct (findSent lastMessageId msgs) as [lastMessage|]; [|discriminate].
  intros _ -> -> Hlt. rewrite Nat.eqb_refl.
  destruct (Nat.leb_spec 3 (S (noChangeCount st))); [lia | reflexivity].
Qed.

Lemma pollStep_break (st : LoopState) (msgs : list BotpressMessage) :
  found lastMessageId msgs = true ->
  length msgs = lastKnownMessageCount st ->
  (2 <= noChangeCount st)%nat ->
  pollStep (Date_valueOf P) lastMessageId st msgs = Break.
Proof.
  unfold found, pollStep, MAX_NO_CHANGE_ATTEMPTS.
  destruct (findSent lastMessageId msgs) as [lastMessage|]; [|discriminate].
  intros _ -> Hge. rewrite Nat.eqb_refl.
  destruct (Nat.leb_spec 3 (S (noChangeCount st))); [reflexivity | lia].
Qed.

Lemma pollStep_growth (st : LoopState) (msgs : list BotpressMessage) :
  found lastMessageId msgs = true ->
  length msgs <> lastKnownMessageCount st ->
  silent (Date_valueOf P) lastMessageId msgs ->
  pollStep (Date_valueOf P) lastMessageId st msgs =
    Continue {| lastKnownMessageCount := length msgs; noChangeCount := 0 |}.
Proof.
  unfold found, silent, pollStep, selectReply.
  destruct (findSent lastMessageId msgs) as [lastMessage|]; [|discriminate].
  intros _ Hne ->.
  destruct (Nat.eqb_spec (length msgs) (lastKnownMessageCount st)); [contradiction|].
  reflexivity.
Qed.

(** Three polls in a row that find the sent message in a list of the
    length last seen stop the loop, whatever number of iterations is left;
    the first two show no reply, the third is not searched for one. *)
Lemma three_unchanged_polls_stop (n i : nat) (st : LoopState)
    (w0 w1 w2 w3 : World P) (r1 r2 r3 : MessagesResponse) :
  noChangeCount st = 0%nat ->
  pollOnce userKey conversationId i w0 = (w1, inr r1) ->
  pollOnce userKey conversationId (S i) w1 = (w2, inr r2) ->
  pollOnce userKey conversationId (S (S i)) w2 = (w3, inr r3) ->
  Forall (fun r => found lastMessageId (messages r) = true /\
                   length (messages r) = lastKnownMessageCount st) [r1; r2; r3] ->
  silent (Date_valueOf P) lastMessageId (messages r1) ->
  silent (Date_valueOf P) lastMessageId (messages r2) ->
  waitLoop userKey conversationId lastMessageId (S (S (S n))) i st w0 =
    (w3, inr (NoChange, [messages r1; messages r2; messages r3])).
Proof.
  intros Hnc H1 H2 H3 Hall Hs1 Hs2.
  inversion Hall as [|? ? [Hf1 Hl1] Hall1]; subst.
  inversion Hall1 as [|? ? [Hf2 Hl2] Hall2]; subst.
  inversion Hall2 as [|? ? [Hf3 Hl3] _]; subst.
  rewrite waitLoop_S, H1, (pollStep_unchanged _ _ Hf1 Hl1 Hs1) by lia.
  rewrite waitLoop_S, H2, pollStep_unchanged by (simpl; auto; lia).
  rewrite waitLoop_S, H3, pollStep_break by (simpl; auto; lia).
  reflexivity.
Qed.

End StopFacts.

(** ** The controllers *)

Section ControllerFacts.

Context {P : Platform}.

Lemma now_wire (w : World P) : wire (fst (now w)) = wire w.
Proof. unfold now, setEnv. destruct (Date_now P (env w)). reflexivity. Qed.

Lemma now_ok (w : World P) : exists t, now w = (fst (now w), inr t).
Proof. unfold now. destruct (Date_now P (env w)) as [e t]. simpl. eauto. Qed.

(** The handler on a request whose validation fails: answered at once. *)
Lemma handleChatMessage_rejected (req : ChatRequest) (w : World P) (response : HttpResponse) :
  (forall w1 : World P, handleChatMessageBody req w1 = (w1, inr response)) ->
  handleChatMessage req w = (fst (now w), response).
Proof.
  intros H. unfold handleChatMessage, bind.
  destruct (now_ok w) as [t ->]. rewrite H. reflexivity.
Qed.

(** A message that is missing ([undefined] or [null]) or an empty string is
    refused with [INVALID_MESSAGE]. *)
Lemma chat_missing_message (req : ChatRequest) (w : World P) :
  req_message req = JsUndefined \/ req_message req = JsNull \/
  req_message req = JsString "" ->
  handleChatMessage req w =
    (fst (now w),
     respond 400 (ErrorBody "Message is required and must be a string" "INVALID_MESSAGE")).
Proof.
  intros H. apply handleChatMessage_rejected. intros w1.
  unfold handleChatMessageBody.
  destruct H as [-> | [-> | ->]]; reflexivity.
Qed.

(** A string of white space only is refused with [EMPTY_MESSAGE]. *)
Lemma chat_blank_message (req : ChatRequest) (w : World P) (text : string) :
  req_message req = JsString text -> text <> "" -> trim text = "" ->
  handleChatMessage req w =
    (fst (now w), respond 400 (ErrorBody "Message cannot be empty" "EMPTY_MESSAGE")).
Proof.
  intros Hm Hne Hblank. apply handleChatMessage_rejected. intros w1.
  unfold handleChatMessageBody. rewrite Hm. simpl.
  destruct (String.eqb_spec text ""); [contradiction|]. simpl.
  rewrite Hblank. reflexivity.
Qed.

(** A string of more than 5000 characters, a fortiori one that is longer
    than that after trimming, is refused. *)
Lemma chat_long_message (req : ChatRequest) (w : World P) (text : string) :
  req_message req = JsString text -> (5000 < String.length (trim text))%nat ->
  status (snd (handleChatMessage req w)) = 400 /\
  fst (handleChatMessage req w) = fst (now w).
Proof.
  intros Hm Hlong. pose proof (trim_length text) as Hlen.
  rewrite (handleChatMessage_rejected req w
             (respond 400 (ErrorBody "Message is too long (max 5000 characters)"
                             "MESSAGE_TOO_LONG"))); [auto|].
  intros w1. unfold handleChatMessageBody. rewrite Hm. simpl.
  destruct (String.eqb_spec text "") as [->|_]; [simpl in Hlong; lia|]. simpl.
  destruct (Nat.eqb_spec (String.length (trim text)) 0); [lia|].
  destruct (Nat.ltb_spec 5000 (String.length text)); [reflexivity | lia].
Qed.

(** A value that is neither missing nor a string never reaches the
    validation: the first log line throws, and the outer [catch] answers. *)
Lemma chat_non_string_message (req : ChatRequest) (w : World P) :
  isString (req_message req) = false ->
  req_message req <> JsUndefined -> req_message req <> JsNull ->
  handleChatMessage req w =
    (fst (now (fst (now w))),
     respond 500 (ErrorBody "Failed to process message" "INTERNAL_SERVER_ERROR")).
Proof.
  intros Hs Hu Hn. unfold handleChatMessage, bind.
  destruct (now_ok w) as [t ->].
  unfold handleChatMessageBody.
  destruct (req_message req); try discriminate; try contradiction; reflexivity.
Qed.

End ControllerFacts.

(* ===================================================================== *)
(** * The claims                                                           *)
(* ===================================================================== *)



(** C4. After a successful [sendMessage] for a conversation the cache has
    no entry for that conversation, and a [getCachedMessages] issued right
    after the send misses. *)
Theorem C4_send_invalidates_cache (P : Platform) (w w1 : World P)
    (userKey conversationId text : string) (response : BotpressMessageResponse) :
  sendMessage userKey conversationId text w = (w1, inr response) ->
  conversationCache w1 !! conversationId = None /\
  snd (getCachedMessages conversationId w1) = inr None.
Proof.
  intros H. apply sendMessage_ok in H as [Hc _].
  assert (Hnone : conversationCache w1 !! conversationId = None)
    by (rewrite Hc; apply lookup_delete_eq).
  split; [exact Hnone|].
  rewrite getCachedMessages_eq. cbv zeta. simpl.
  unfold lookupFreshAt. rewrite clearExpiredAt_None by exact Hnone. reflexivity.
Qed.

Lemma C4_witness :
  sendMessage "key-1" "conv-1" "Hello" (Demo.cachedWorld 10) =
    (fst (sendMessage "key-1" "conv-1" "Hello" (Demo.cachedWorld 10)),
     inr {| resp_message := Demo.hello |}) /\
  conversationCache (Demo.cachedWorld 10) !! "conv-1" = Some (freshEntry 0 [Demo.hello]) /\
  snd (getCachedMessages "conv-1"
         (fst (sendMessage "key-1" "conv-1" "Hello" (Demo.cachedWorld 10)))) = inr None.
Proof.
  split; [vm_compute; reflexivity|]. split; [vm_compute; reflexivity|].
  apply (C4_send_invalidates_cache Demo.platform (Demo.cachedWorld 10)
           (fst (sendMessage "key-1" "conv-1" "Hello" (Demo.cachedWorld 10)))
           "key-1" "conv-1" "Hello" {| resp_message := Demo.hello |}).
  vm_compute; reflexivity.
Defined.

(** C5. A stored entry whose age, on the clock reading of the freshness
    test, has reached its time-to-live is not returned:
    [getCachedMessages] misses. The time-to-live is 300000 ms in every
    entry the service writes. *)
Theorem C5_expired_entry_is_a_miss (P : Platform) (w : World P)
    (conversationId : string) (entry : ConversationCache) :
  conversationCache w !! conversationId = Some entry ->
  let now := snd (Date_now P (fst (Date_now P (env w)))) in
  ttl entry <= now - lastUpdated entry ->
  snd (getCachedMessages conversationId w) = inr None /\
  (cacheWf (conversationCache w) -> ttl entry = 300000).
Proof.
  intros Hentry now Hage. split.
  - rewrite getCachedMessages_eq. cbv zeta. simpl. fold now.
    destruct (lookupFreshAt now conversationId _) as [msgs|] eqn:E; [|reflexivity].
    apply lookupFreshAt_Some in E as (c & Hc & _ & Hlt).
    apply clearExpiredAt_lookup in Hc as [Hc _].
    rewrite Hentry in Hc. injection Hc as <-. lia.
  - intros Hwf. rewrite (Hwf _ _ Hentry). reflexivity.
Qed.

Lemma C5_witness :
  conversationCache (Demo.cachedWorld 300000) !! "conv-1" = Some (freshEntry 0 [Demo.hello]) /\
  snd (getCachedMessages "conv-1" (Demo.cachedWorld 300000)) = inr None /\
  snd (getCachedMessages "conv-1" (Demo.cachedWorld 299999)) = inr (Some [Demo.hello]).
Proof.
  split; [vm_compute; reflexivity|]. split; [|vm_compute; reflexivity].
  apply (C5_expired_entry_is_a_miss Demo.platform (Demo.cachedWorld 300000) "conv-1"
           (freshEntry 0 [Demo.hello])).
  - vm_compute; reflexivity.
  - vm_compute; discriminate.
Defined.

(** C10. When [listMessages] is served from the cache, its [meta] is made
    up from the cached list alone: [pageSize] is the number of cached
    messages and [nextToken] is [undefined]; nothing is asked upstream. *)
Theorem C10_cache_hit_meta_is_synthesized (P : Platform) (w w1 : World P)
    (userKey conversationId : string) (msgs : list BotpressMessage) :
  getCachedMessages conversationId w = (w1, inr (Some msgs)) ->
  exists response,
    listMessages userKey conversationId w = (w1, inr response) /\
    messages response = msgs /\
    meta response !! "pageSize" = Some (JsNumber (inject_Z (Z.of_nat (length msgs)))) /\
    meta response !! "nextToken" = Some JsUndefined /\
    (forall k, k <> "pageSize" -> k <> "nextToken" -> meta response !! k = None) /\
    wire w1 = wire w.
Proof.
  intros H. exists {| messages := msgs; meta := cachedMeta msgs |}.
  split.
  - unfold listMessages, tryCatch, bind. rewrite H. reflexivity.
  - simpl. split; [reflexivity|]. unfold cachedMeta.
    split; [apply lookup_insert_eq|].
    split; [rewrite lookup_insert_ne by discriminate; apply lookup_insert_eq|].
    split.
    + intros k Hk1 Hk2. rewrite !lookup_insert_ne by congruence. apply lookup_empty.
    + rewrite getCachedMessages_eq in H. cbv zeta in H. injection H as <- _. reflexivity.
Qed.

(** The entry is stored from an upstream answer whose [meta] has
    [pageSize] 20 and a [nextToken]; the next [listMessages] is a hit. *)
Lemma C10_witness :
  let w0 := Demo.world (Demo.script [Demo.page [Demo.hello]] 0) in
  let w1 := fst (listMessages "key-1" "conv-1" w0) in
  snd (listMessages "key-1" "conv-1" w0) = Demo.page [Demo.hello] /\
  exists response,
    listMessages "key-1" "conv-1" w1 = (fst (getCachedMessages "conv-1" w1), inr response) /\
    messages response = [Demo.hello] /\
    meta response !! "pageSize" = Some (JsNumber (inject_Z 1)) /\
    meta response !! "nextToken" = Some JsUndefined.
Proof.
  intros w0 w1. split; [vm_compute; reflexivity|].
  destruct (C10_cache_hit_meta_is_synthesized Demo.platform w1
              (fst (getCachedMessages "conv-1" w1)) "key-1" "conv-1" [Demo.hello])
    as (response & H1 & H2 & H3 & H4 & _).
  - vm_compute; reflexivity.
  - exists response. auto.
Defined.

(** C9. A run of the waiter that ends by the no-change exit has found the
    sent message in at least four polls. The exit cannot fire in the first
    poll that finds the sent message: the loop variables still have their
    initial values there, a list that contains the sent message is not
    empty, so its length differs from the baseline 0, the poll counts as
    growth and resets the counter; polls follow it. *)
Theorem C9_no_change_exit_needs_four_found_polls (P : Platform) (w w' : World P)
    (userKey conversationId lastMessageId : string)
    (polled : list (list BotpressMessage)) :
  waitForBotResponseRun userKey conversationId lastMessageId w =
    (w', inr (NoChange, polled)) ->
  (4 <= foundCount lastMessageId polled)%nat /\
  (forall msgs lastMessage,
      findSent lastMessageId msgs = Some lastMessage ->
      length msgs <> lastKnownMessageCount initialLoopState /\
      pollStep (Date_valueOf P) lastMessageId initialLoopState msgs =
        selectReply (Date_valueOf P) lastMessageId lastMessage msgs
          {| lastKnownMessageCount := length msgs; noChangeCount := 0 |}) /\
  (forall pre msgs post,
      polled = pre ++ msgs :: post ->
      foundCount lastMessageId pre = 0%nat -> found lastMessageId msgs = true ->
      (3 <= foundCount lastMessageId post)%nat).
Proof.
  intros H.
  assert (Hfour : (4 <= foundCount lastMessageId polled)%nat).
  { apply run_noChange_streak in H as (pre & streak & c & Heq & Hlen & _).
    unfold foundCount. rewrite Heq, length_app. lia. }
  split; [exact Hfour|]. split.
  - intros msgs lastMessage Hf.
    pose proof (findSent_nonempty _ _ _ Hf) as Hne. split; [exact Hne|].
    unfold pollStep. rewrite Hf. simpl.
    destruct (Nat.eqb_spec (length msgs) 0) as [Hz|_]; [contradiction | reflexivity].
  - intros pre msgs post -> Hpre Hf.
    unfold foundCount in *. rewrite List.filter_app, length_app in Hfour.
    simpl in Hfour. rewrite Hf in Hfour. simpl in Hfour. lia.
Qed.

Lemma C9_witness :
  let w := Demo.world (Demo.script [Demo.page [Demo.hello]] 0) in
  let polled := [[Demo.hello]; [Demo.hello]; [Demo.hello]; [Demo.hello]] in
  snd (waitForBotResponseRun "key-1" "conv-1" "m1" w) = inr (NoChange, polled) /\
  (4 <= foundCount "m1" polled)%nat.
Proof.
  intros w polled. split; [vm_compute; reflexivity|].
  apply (C9_no_change_exit_needs_four_found_polls Demo.platform w
           (fst (waitForBotResponseRun "key-1" "conv-1" "m1" w))
           "key-1" "conv-1" "m1" polled).
  vm_compute; reflexivity.
Defined.

(** The run [C2_run] refutes C2 as stated: its fourth poll is the third
    one in a row with an unchanged count, and the loop stops before it
    looks for a reply. *)
Lemma C2_counterexample : ~ C2_as_stated.
Proof.
  intros claim.
  destruct (claim Demo.platform C2_run
              (fst (waitForBotResponseRun "key-1" "conv-1" "m1" C2_run))
              "key-1" "conv-1" "m1" NoChange
              [[Demo.older; Demo.hello]; [Demo.older; Demo.hello];
               [Demo.older; Demo.hello]; [Demo.hello; Demo.reply1]]
              [Demo.hello; Demo.reply1] Demo.hello) as (m & Hm & _).
  - vm_compute; reflexivity.
  - simpl. auto.
  - vm_compute; reflexivity.
  - vm_compute; reflexivity.
  - vm_compute. discriminate.
  - discriminate.
Qed.

(** C2, amended. A polled list that is in ascending order, contains the
    sent message and has another message later than it is the last list the
    run polls, and the waiter returns the earliest such message, unless
    that poll is the one at which the no-change exit fires (the last four
    polls that found the sent message returned lists of this length), in
    which case the waiter stops there with [null]. *)
Theorem C2_earliest_reply_unless_no_change_exit (P : Platform) (w w' : World P)
    (userKey conversationId lastMessageId : string)
    (out : WaitOutcome) (polled : list (list BotpressMessage))
    (msgs : list BotpressMessage) (lastMessage : BotpressMessage) :
  waitForBotResponseRun userKey conversationId lastMessageId w =
    (w', inr (out, polled)) ->
  In msgs polled ->
  ascending (Date_valueOf P) msgs = true ->
  findSent lastMessageId msgs = Some lastMessage ->
  botMessages (Date_valueOf P) lastMessageId lastMessage msgs <> [] ->
  (exists pre, polled = pre ++ [msgs]) /\
  ((exists m t0 t,
       out = Replied m /\
       head (botMessages (Date_valueOf P) lastMessageId lastMessage msgs) = Some m /\
       In m msgs /\ msg_id m <> lastMessageId /\
       Date_valueOf P (msg_createdAt lastMessage) = Some t0 /\
       Date_valueOf P (msg_createdAt m) = Some t /\ t0 < t /\
       forall m',
         In m' (botMessages (Date_valueOf P) lastMessageId lastMessage msgs) ->
         exists t', Date_valueOf P (msg_createdAt m') = Some t' /\ t0 < t' /\ t <= t') \/
   (out = NoChange /\
    exists pre streak,
      List.filter (found lastMessageId) polled = pre ++ streak /\
      length streak = 4%nat /\
      Forall (fun l => length l = length msgs) streak)).
Proof.
  intros Hrun Hin Hasc Hf Hb.
  assert (Hloud : ~ silent (Date_valueOf P) lastMessageId msgs)
    by (unfold silent; rewrite Hf; exact Hb).
  assert (Hlast : forall pre last,
             polled = pre ++ [last] ->
             Forall (silent (Date_valueOf P) lastMessageId) pre -> last = msgs).
  { intros pre last -> Hpre. apply in_app_or in Hin as [Hin|[Heq|[]]]; [|exact Heq].
    rewrite Forall_forall in Hpre. exfalso. apply Hloud, Hpre.
    apply list_elem_of_In. exact Hin. }
  pose proof Hrun as Hshape. rewrite waitForBotResponseRun_eq in Hshape.
  apply waitLoop_polled in Hshape as [_ Hshape].
  destruct out as [m| |].
  - destruct Hshape as (pre & last & lastMessage' & rest & Hp & Hpre & Hf' & Hb').
    pose proof (Hlast _ _ Hp Hpre) as ->. rewrite Hf in Hf'. injection Hf' as <-.
    split; [eauto|]. left.
    destruct (botMessages_head_earliest _ _ _ _ _ _ Hasc Hb')
      as (Hm & Hid & t0 & t & Ht0 & Ht & Hlt & Hmin).
    exists m, t0, t. rewrite Hb'. repeat split; auto.
    + rewrite <- Hb'. exact Hmin.
  - destruct Hshape as (pre & last & Hp & Hpre & _).
    pose proof (Hlast _ _ Hp Hpre) as ->.
    split; [eauto|]. right. split; [reflexivity|].
    apply run_noChange_streak in Hrun as (pre' & streak & c & Heq & Hlen & Hall).
    exists pre', streak. split; [exact Heq|]. split; [exact Hlen|].
    assert (Hc : c = length msgs).
    { rewrite Hp, List.filter_app in Heq. simpl in Heq.
      unfold found in Heq at 2. rewrite Hf in Heq.
      destruct (exists_last (l := streak)) as (streak' & y & ->);
        [intros ->; discriminate|].
      rewrite app_assoc in Heq. apply app_inj_tail in Heq as [_ <-].
      apply Forall_app in Hall as [_ Hy]. apply Forall_inv in Hy. auto. }
    rewrite <- Hc. exact Hall.
  - destruct Hshape as [_ Hall]. exfalso. rewrite Forall_forall in Hall.
    apply Hloud, Hall, list_elem_of_In. exact Hin.
Qed.

Lemma C2_witness :
  let w := Demo.world
             (Demo.script [Demo.page [Demo.older; Demo.hello; Demo.reply1; Demo.reply2]] 0) in
  let msgs := [Demo.older; Demo.hello; Demo.reply1; Demo.reply2] in
  snd (waitForBotResponseRun "key-1" "conv-1" "m1" w) = inr (Replied Demo.reply1, [msgs]) /\
  exists pre, [msgs] = pre ++ [msgs].
Proof.
  intros w msgs. split; [vm_compute; reflexivity|].
  apply (C2_earliest_reply_unless_no_change_exit Demo.platform w
           (fst (waitForBotResponseRun "key-1" "conv-1" "m1" w))
           "key-1" "conv-1" "m1" (Replied Demo.reply1) [msgs] msgs Demo.hello).
  - vm_compute; reflexivity.
  - left; reflexivity.
  - vm_compute; reflexivity.
  - vm_compute; reflexivity.
  - vm_compute; discriminate.
Defined.

(** C3. [waitForBotResponse] throws exactly when a request for the message
    list failed during the run, and then throws that failure. Otherwise it
    returns normally, [null] exactly when the loop was left by exhaustion
    (15 polls, none of which showed a reply) or by the no-change exit (the
    last four polls that found the sent message returned lists of one
    length: three in a row without growth), and a message otherwise. And
    three polls in a row that find the sent message without growth of the
    message count, the first two showing no reply, stop the loop with
    [null] however many iterations are left; from the start of the waiter,
    that is the case after a first poll that found the sent message and
    three more of the same length. *)
Theorem C3_null_is_normal_and_failures_propagate (P : Platform)
    (userKey conversationId lastMessageId : string) :
  (forall w : World P,
      let result := waitForBotResponse userKey conversationId lastMessageId w in
      exists evs,
        wire (fst result) = evs ++ wire w /\
        (forall e, snd result = inl e <->
                   In (EvHttp (GetMessages userKey conversationId) (Some e)) evs) /\
        (forall reply, snd result = inr reply ->
           exists out polled,
             snd (waitForBotResponseRun userKey conversationId lastMessageId w) =
               inr (out, polled) /\
             reply = toNullable out /\
             match out with
             | Replied m =>
                 exists pre msgs lastMessage rest,
                   polled = pre ++ [msgs] /\
                   findSent lastMessageId msgs = Some lastMessage /\
                   botMessages (Date_valueOf P) lastMessageId lastMessage msgs = m :: rest
             | NoChange =>
                 exists pre streak c,
                   List.filter (found lastMessageId) polled = pre ++ streak /\
                   length streak = 4%nat /\ Forall (fun l => length l = c) streak
             | Exhausted =>
                 length polled = 15%nat /\
                 Forall (silent (Date_valueOf P) lastMessageId) polled
             end)) /\
  (forall (n i : nat) (st : LoopState) (w0 w1 w2 w3 : World P)
          (r1 r2 r3 : MessagesResponse),
      noChangeCount st = 0%nat ->
      pollOnce userKey conversationId i w0 = (w1, inr r1) ->
      pollOnce userKey conversationId (S i) w1 = (w2, inr r2) ->
      pollOnce userKey conversationId (S (S i)) w2 = (w3, inr r3) ->
      Forall (fun r => found lastMessageId (messages r) = true /\
                       length (messages r) = lastKnownMessageCount st) [r1; r2; r3] ->
      silent (Date_valueOf P) lastMessageId (messages r1) ->
      silent (Date_valueOf P) lastMessageId (messages r2) ->
      waitLoop userKey conversationId lastMessageId (S (S (S n))) i st w0 =
        (w3, inr (NoChange, [messages r1; messages r2; messages r3]))) /\
  (forall (w0 w1 w2 w3 w4 : World P) (r0 r1 r2 r3 : MessagesResponse),
      pollOnce userKey conversationId 0 w0 = (w1, inr r0) ->
      pollOnce userKey conversationId 1 w1 = (w2, inr r1) ->
      pollOnce userKey conversationId 2 w2 = (w3, inr r2) ->
      pollOnce userKey conversationId 3 w3 = (w4, inr r3) ->
      Forall (fun r => found lastMessageId (messages r) = true /\
                       length (messages r) = length (messages r0)) [r0; r1; r2; r3] ->
      Forall (fun r => silent (Date_valueOf P) lastMessageId (messages r)) [r0; r1; r2] ->
      waitForBotResponse userKey conversationId lastMessageId w0 = (w4, inr None)).
Proof.
  split; [|split].
  - intros w result. subst result.
    rewrite waitForBotResponse_eq.
    destruct (waitForBotResponseRun userKey conversationId lastMessageId w)
      as [w' res] eqn:Hrun.
    pose proof Hrun as Hloop. rewrite waitForBotResponseRun_eq in Hloop.
    pose proof (waitLoop_wire _ _ _ _ _ _ _ _ _ Hloop) as (evs & Hw & _ & _ & _ & Hres).
    exists evs. destruct res as [e|[out polled]]; simpl.
    + split; [exact Hw|]. destruct Hres as (rest & -> & Hq). split.
      * intros e'. split.
        -- intros [= ->]. left. reflexivity.
        -- intros [[= ->]|Hin]; [reflexivity|].
           rewrite Forall_forall in Hq. apply list_elem_of_In in Hin.
           destruct (Hq _ Hin).
      * intros reply [=].
    + split; [exact Hw|]. destruct Hres as [Hq _]. split.
      * intros e. split; [intros [=]|].
        intros Hin. rewrite Forall_forall in Hq. apply list_elem_of_In in Hin.
        destruct (Hq _ Hin).
      * intros reply [= <-]. exists out, polled.
        split; [reflexivity|]. split; [reflexivity|].
        pose proof (waitLoop_polled _ _ _ _ _ _ _ _ _ _ Hloop) as [_ Hshape].
        destruct out as [m| |].
        -- destruct Hshape as (pre & msgs & lastMessage & rest & Hp & _ & Hf & Hb). eauto 8.
        -- eapply run_noChange_streak; eauto.
        -- exact Hshape.
  - intros. eapply three_unchanged_polls_stop; eauto.
  - intros w0 w1 w2 w3 w4 r0 r1 r2 r3 H0 H1 H2 H3 Hall Hsil.
    inversion Hall as [|? ? [Hf0 _] Hall']; subst.
    inversion Hsil as [|? ? Hs0 Hsil1]; subst.
    inversion Hsil1 as [|? ? Hs1 Hsil2]; subst.
    inversion Hsil2 as [|? ? Hs2 _]; subst.
    rewrite waitForBotResponse_eq, waitForBotResponseRun_eq.
    unfold MAX_RETRIES. rewrite waitLoop_S, H0.
    rewrite pollStep_growth; auto; [|apply found_nonempty in Hf0; simpl; lia].
    rewrite (three_unchanged_polls_stop userKey conversationId lastMessageId
               11 1 _ w1 w2 w3 w4 r1 r2 r3); auto.
Qed.

(** The chat platform shows the sent message and nothing else: the first
    poll fetches the list, the next three are served from the cache, and
    the waiter returns [null] after four of its fifteen attempts. *)
Lemma C3_witness :
  let w0 := Demo.world (Demo.script [Demo.page [Demo.hello]] 0) in
  let w1 := fst (pollOnce "key-1" "conv-1" 0 w0) in
  let w2 := fst (pollOnce "key-1" "conv-1" 1 w1) in
  let w3 := fst (pollOnce "key-1" "conv-1" 2 w2) in
  let w4 := fst (pollOnce "key-1" "conv-1" 3 w3) in
  pollOnce "key-1" "conv-1" 0 w0 = (w1, inr (Demo.response [Demo.hello])) /\
  pollOnce "key-1" "conv-1" 3 w3 = (w4, inr (Demo.cached [Demo.hello])) /\
  waitForBotResponse "key-1" "conv-1" "m1" w0 = (w4, inr None) /\
  sleeps (wire w4) = 4%nat.
Proof.
  intros w0 w1 w2 w3 w4.
  split; [vm_compute; reflexivity|]. split; [vm_compute; reflexivity|].
  split; [|vm_compute; reflexivity].
  apply (proj2 (proj2 (C3_null_is_normal_and_failures_propagate
                         Demo.platform "key-1" "conv-1" "m1"))
           w0 w1 w2 w3 w4
           (Demo.response [Demo.hello]) (Demo.cached [Demo.hello])
           (Demo.cached [Demo.hello]) (Demo.cached [Demo.hello])).
  - vm_compute; reflexivity.
  - vm_compute; reflexivity.
  - vm_compute; reflexivity.
  - vm_compute; reflexivity.
  - repeat constructor.
  - repeat constructor.
Defined.

(** C6 (what the code does on the failing input). A chat request whose
    [message] is the number 42 is answered with 500
    [INTERNAL_SERVER_ERROR], not with 400; no request is sent upstream. *)
Theorem C6_number_message_answers_500 (P : Platform) (w : World P)
    (userId conversationId userKey : option string) :
  let req := {| req_message := JsNumber 42; req_userId := userId;
                req_conversationId := conversationId; req_userKey := userKey |} in
  snd (handleChatMessage req w) =
    respond 500 (ErrorBody "Failed to process message" "INTERNAL_SERVER_ERROR") /\
  wire (fst (handleChatMessage req w)) = wire w.
Proof.
  intros req.
  rewrite (chat_non_string_message req w) by (simpl; congruence).
  simpl. split; [reflexivity|]. rewrite !now_wire. reflexivity.
Qed.

(** For the other requests C6 names the handler does answer 400 without a
    request upstream: [message] missing, empty, blank, or longer than 5000
    characters after trimming. *)
Lemma chat_invalid_string_or_missing (P : Platform) (req : ChatRequest) (w : World P) :
  (req_message req = JsUndefined \/ req_message req = JsNull \/
   exists text, req_message req = JsString text /\
                (trim text = "" \/ (5000 < String.length (trim text))%nat)) ->
  status (snd (handleChatMessage req w)) = 400 /\
  wire (fst (handleChatMessage req w)) = wire w.
Proof.
  intros [H | [H | (text & Hm & [Hblank | Hlong])]].
  - rewrite chat_missing_message by auto. simpl. split; [reflexivity | apply now_wire].
  - rewrite chat_missing_message by auto. simpl. split; [reflexivity | apply now_wire].
  - destruct (String.eqb_spec text "") as [->|Hne].
    + rewrite chat_missing_message by auto. simpl. split; [reflexivity | apply now_wire].
    + rewrite (chat_blank_message req w text) by auto. simpl.
      split; [reflexivity | apply now_wire].
  - destruct (chat_long_message req w text Hm Hlong) as [Hs Hw].
    split; [exact Hs|]. rewrite Hw. apply now_wire.
Qed.



(** The submission [C8_request], whose e-mail is "not-an-email" and whose
    name is missing, is answered with the error for missing fields: C8 as
    stated fails. *)
Lemma C8_counterexample :
  regexTest emailRegex (default "undefined" (contact_email C8_request)) = false /\
  snd (ContactController_sendMessage C8_request (Demo.world (Demo.script [] 0))) =
    respond 400 (ContactBody false "Missing required fields") /\
  ~ C8_as_stated.
Proof.
  split; [reflexivity|]. split; [reflexivity|].
  intros claim.
  destruct (claim Demo.platform C8_request (Demo.world (Demo.script [] 0))) as [H _].
  - reflexivity.
  - discriminate H.
Qed.

(** C8, amended. Whenever the e-mail does not match the format, the answer
    is 400 and nothing is sent to the relay (the world is left as it was);
    the error is the one about the e-mail format when name, e-mail and
    message are all present and non-empty, and the one about missing
    fields otherwise. *)
Theorem C8_invalid_email_is_refused_without_relay_call (P : Platform)
    (req : ContactRequest) (w : World P) :
  regexTest emailRegex (default "undefined" (contact_email req)) = false ->
  status (snd (ContactController_sendMessage req w)) = 400 /\
  fst (ContactController_sendMessage req w) = w /\
  body (snd (ContactController_sendMessage req w)) =
    (if absent (contact_name req) || absent (contact_email req)
        || absent (contact_message req)
     then ContactBody false "Missing required fields"
     else ContactBody false "Invalid email format").
Proof.
  intros Hbad. unfold ContactController_sendMessage.
  destruct (absent (contact_name req) || absent (contact_email req)
            || absent (contact_message req)) eqn:Habs.
  - unfold ret. simpl. auto.
  - apply orb_false_iff in Habs as [Habs _]. apply orb_false_iff in Habs as [_ Hemail].
    destruct (contact_email req) as [email|]; [|discriminate].
    simpl in Hbad. simpl. rewrite Hbad. unfold ret. simpl. auto.
Qed.

Lemma C8_witness :
  let req := {| contact_name := Some "Ada"; contact_email := Some "not-an-email";
                contact_message := Some "Hello there" |} in
  let w := Demo.world (Demo.script [] 0) in
  regexTest emailRegex "not-an-email" = false /\
  status (snd (ContactController_sendMessage req w)) = 400 /\
  fst (ContactController_sendMessage req w) = w /\
  body (snd (ContactController_sendMessage req w)) = ContactBody false "Invalid email format".
Proof.
  intros req w. split; [reflexivity|].
  apply (C8_invalid_email_is_refused_without_relay_call Demo.platform req w).
  reflexivity.
Defined.

(* ===================================================================== *)
(** * Further properties of the code                                       *)
(* ===================================================================== *)

(** ** Trimming *)

Lemma trimStart_blank (s : string) :
  trimStart s = "" <-> allChars isWhiteSpace s = true.
Proof.
  induction s as [|c r IH]; simpl; [tauto|].
  destruct (isWhiteSpace c); simpl; [exact IH|]. split; discriminate.
Qed.

Lemma trimEnd_blank (s : string) :
  trimEnd s = "" <-> allChars isWhiteSpace s = true.
Proof.
  induction s as [|c r IH]; simpl; [tauto|].
  destruct (trimEnd r) as [|c' r'] eqn:E.
  - destruct (isWhiteSpace c); simpl.
    + split; [intros _; apply IH; reflexivity | reflexivity].
    + split; discriminate.
  - split; [discriminate|]. intros H. apply andb_true_iff in H as [_ H].
    apply IH in H. discriminate.
Qed.

Lemma allChars_trimStart (p : ascii -> bool) (s : string) :
  allChars p s = true -> allChars p (trimStart s) = true.
Proof.
  induction s as [|c r IH]; simpl; [auto|].
  intros H. destruct (isWhiteSpace c); [|exact H].
  apply andb_true_iff in H as [_ H]. auto.
Qed.

Lemma trimStart_not_blank (s : string) :
  allChars isWhiteSpace s = false -> allChars isWhiteSpace (trimStart s) = false.
Proof.
  induction s as [|c r IH]; simpl; [auto|].
  destruct (isWhiteSpace c) eqn:E; simpl; [exact IH|].
  intros _. rewrite E. reflexivity.
Qed.

Lemma trim_blank (s : string) :
  trim s = "" <-> allChars isWhiteSpace s = true.
Proof.
  unfold trim. rewrite trimEnd_blank. split.
  - intros H. destruct (allChars isWhiteSpace s) eqn:E; [reflexivity|].
    apply trimStart_not_blank in E. congruence.
  - apply allChars_trimStart.
Qed.

Lemma trimEnd_cons (c : ascii) (r : string) :
  trimEnd (String c r) =
  match trimEnd r with
  | EmptyString => if isWhiteSpace c then EmptyString else String c EmptyString
  | r' => String c r'
  end.
Proof. reflexivity. Qed.

Lemma trimEnd_idempotent (s : string) : trimEnd (trimEnd s) = trimEnd s.
Proof.
  induction s as [|c r IH]; [reflexivity|].
  rewrite (trimEnd_cons c r).
  destruct (trimEnd r) as [|c' r'] eqn:E.
  - destruct (isWhiteSpace c) eqn:Ec; [reflexivity|].
    rewrite trimEnd_cons. simpl. rewrite Ec. reflexivity.
  - rewrite trimEnd_cons, IH. reflexivity.
Qed.

Lemma trimEnd_head (c : ascii) (r : string) :
  isWhiteSpace c = false -> exists r', trimEnd (String c r) = String c r'.
Proof.
  intros H. simpl. destruct (trimEnd r); [rewrite H|]; eauto.
Qed.

Lemma trimStart_head (s : string) :
  trimStart s = "" \/ exists c r, trimStart s = String c r /\ isWhiteSpace c = false.
Proof.
  induction s as [|c r IH]; simpl; [auto|].
  destruct (isWhiteSpace c) eqn:E; [exact IH|]. right. eauto.
Qed.

(** ** The regular expression matcher *)

Local Open Scope string_scope.

Lemma append_nil_l (s : string) : ("" ++ s)%string = s.
Proof. reflexivity. Qed.

Lemma append_cons (c : ascii) (a b : string) :
  (String c a ++ b)%string = String c (a ++ b)%string.
Proof. reflexivity. Qed.

Lemma append_nil_r (s : string) : (s ++ "")%string = s.
Proof.
  induction s as [|c r IH]; [reflexivity|]. rewrite append_cons, IH. reflexivity.
Qed.

Lemma append_assoc (a b c : string) : ((a ++ b) ++ c = a ++ (b ++ c))%string.
Proof.
  induction a as [|x a IH]; [reflexivity|]. rewrite !append_cons, IH. reflexivity.
Qed.

Lemma append_length (a b : string) :
  String.length (a ++ b) = (String.length a + String.length b)%nat.
Proof.
  induction a as [|x a IH]; [reflexivity|]. rewrite append_cons. simpl. rewrite IH.
  reflexivity.
Qed.

Lemma matches_seq_inv (r1 r2 : Regex) (s : string) :
  matches (RSeq r1 r2) s ->
  exists s1 s2, s = (s1 ++ s2)%string /\ matches r1 s1 /\ matches r2 s2.
Proof. intros H. inversion H; subst. eauto. Qed.

Lemma matches_alt_inv (r1 r2 : Regex) (s : string) :
  matches (RAlt r1 r2) s -> matches r1 s \/ matches r2 s.
Proof. intros H. inversion H; subst; auto. Qed.

Lemma matches_none_inv (s : string) : ~ matches RNone s.
Proof. intros H. inversion H. Qed.

Lemma matches_eps_inv (s : string) : matches REps s -> s = "".
Proof. intros H. inversion H. reflexivity. Qed.

Lemma matches_class_inv (p : ascii -> bool) (s : string) :
  matches (RClass p) s -> exists c, s = String c "" /\ p c = true.
Proof. intros H. inversion H; subst. eauto. Qed.

Lemma append_eq_nil (a b : string) : (a ++ b)%string = "" -> a = "" /\ b = "".
Proof. destruct a; [auto | discriminate]. Qed.

Lemma nullable_matches (r : Regex) : nullable r = true <-> matches r "".
Proof.
  induction r as [| |p|r1 IH1 r2 IH2|r1 IH1 r2 IH2|r IH]; simpl.
  - split; [discriminate | intros H; destruct (matches_none_inv _ H)].
  - split; [constructor | reflexivity].
  - split; [discriminate|]. intros H.
    apply matches_class_inv in H as (c & Hc & _). discriminate.
  - rewrite andb_true_iff, IH1, IH2. split.
    + intros [H1 H2]. exact (MSeq _ _ "" "" H1 H2).
    + intros H. apply matches_seq_inv in H as (s1 & s2 & Heq & H1 & H2).
      symmetry in Heq. apply append_eq_nil in Heq as [-> ->]. auto.
  - rewrite orb_true_iff, IH1, IH2. split.
    + intros [H|H]; [apply MAltL | apply MAltR]; exact H.
    + apply matches_alt_inv.
  - split; [constructor | reflexivity].
Qed.

Lemma matches_seq_none_l (r : Regex) (s : string) : ~ matches (RSeq RNone r) s.
Proof.
  intros H. apply matches_seq_inv in H as (s1 & s2 & _ & H1 & _).
  exact (matches_none_inv _ H1).
Qed.

Lemma matches_seq_none_r (r : Regex) (s : string) : ~ matches (RSeq r RNone) s.
Proof.
  intros H. apply matches_seq_inv in H as (s1 & s2 & _ & _ & H2).
  exact (matches_none_inv _ H2).
Qed.

Lemma matches_seq_eps_l (r : Regex) (s : string) :
  matches r s <-> matches (RSeq REps r) s.
Proof.
  split.
  - intros H. exact (MSeq REps r "" s MEps H).
  - intros H. apply matches_seq_inv in H as (s1 & s2 & -> & H1 & H2).
    apply matches_eps_inv in H1 as ->. exact H2.
Qed.

Lemma mkSeq_matches (r1 r2 : Regex) (s : string) :
  matches (mkSeq r1 r2) s <-> matches (RSeq r1 r2) s.
Proof.
  destruct r1; destruct r2; simpl; try tauto; try apply matches_seq_eps_l;
    solve [split; intros H; exfalso;
           first [exact (matches_none_inv _ H)
                 | exact (matches_seq_none_l _ _ H)
                 | exact (matches_seq_none_r _ _ H)]].
Qed.

Lemma mkAlt_matches (r1 r2 : Regex) (s : string) :
  matches (mkAlt r1 r2) s <-> matches (RAlt r1 r2) s.
Proof.
  assert (Hl : forall r, matches r s <-> matches (RAlt RNone r) s).
  { intros r. split; [apply MAltR|].
    intros H. apply matches_alt_inv in H as [H|H]; [destruct (matches_none_inv _ H) | exact H]. }
  assert (Hr : forall r, matches r s <-> matches (RAlt r RNone) s).
  { intros r. split; [apply MAltL|].
    intros H. apply matches_alt_inv in H as [H|H]; [exact H | destruct (matches_none_inv _ H)]. }
  destruct r1; destruct r2; simpl; try tauto; try apply Hl; try apply Hr.
Qed.

(** A non-empty word of [r*] starts with a non-empty word of [r]. *)
Lemma star_cons (r : Regex) (s0 : string) :
  matches (RStar r) s0 -> forall c s, s0 = String c s ->
  exists s1 s2, s = (s1 ++ s2)%string /\ matches r (String c s1) /\ matches (RStar r) s2.
Proof.
  intros H. remember (RStar r) as r0 eqn:Hr. revert Hr.
  induction H as [| | | | | r' | r' s1 s2 H1 _ H2 IH2]; intros Hr; try discriminate Hr.
  - intros c s Heq. discriminate Heq.
  - injection Hr as ->. intros c s Heq. destruct s1 as [|c1 s1'].
    + rewrite append_nil_l in Heq. apply IH2; auto.
    + rewrite append_cons in Heq. injection Heq as <- <-. exists s1', s2. auto.
Qed.

Lemma matches_seq_cons (r1 r2 : Regex) (c : ascii) (s : string) :
  matches (RSeq r1 r2) (String c s) <->
  (exists s1 s2, s = (s1 ++ s2)%string /\ matches r1 (String c s1) /\ matches r2 s2) \/
  (matches r1 "" /\ matches r2 (String c s)).
Proof.
  split.
  - intros H. apply matches_seq_inv in H as (s1 & s2 & Heq & H1 & H2).
    destruct s1 as [|c1 s1'].
    + rewrite append_nil_l in Heq. subst. right. auto.
    + rewrite append_cons in Heq. injection Heq as -> ->. left. eauto.
  - intros [(s1 & s2 & -> & H1 & H2) | [H1 H2]].
    + exact (MSeq r1 r2 (String c s1) s2 H1 H2).
    + exact (MSeq r1 r2 "" (String c s) H1 H2).
Qed.

Lemma deriv_matches (r : Regex) : forall (c : ascii) (s : string),
  matches (deriv c r) s <-> matches r (String c s).
Proof.
  induction r as [| |p|r1 IH1 r2 IH2|r1 IH1 r2 IH2|r IH]; intros c s; simpl.
  - split; intros H; destruct (matches_none_inv _ H).
  - split; intros H; [destruct (matches_none_inv _ H)|].
    apply matches_eps_inv in H. discriminate.
  - destruct (p c) eqn:Hp; split; intros H.
    + apply matches_eps_inv in H as ->. constructor. exact Hp.
    + apply matches_class_inv in H as (c' & [= <- ->] & _). constructor.
    + destruct (matches_none_inv _ H).
    + apply matches_class_inv in H as (c' & [= <- ->] & Hc). congruence.
  - assert (Hseq : matches (mkSeq (deriv c r1) r2) s <->
                   exists s1 s2, s = (s1 ++ s2)%string /\
                                 matches r1 (String c s1) /\ matches r2 s2).
    { rewrite mkSeq_matches. split.
      - intros H. apply matches_seq_inv in H as (s1 & s2 & -> & H1 & H2).
        exists s1, s2. rewrite <- IH1. auto.
      - intros (s1 & s2 & -> & H1 & H2). constructor; [apply IH1|]; assumption. }
    rewrite matches_seq_cons. destruct (nullable r1) eqn:Hn.
    + rewrite mkAlt_matches. apply nullable_matches in Hn. split.
      * intros H. apply matches_alt_inv in H as [H|H]; [left; apply Hseq; assumption|].
        right. split; [exact Hn | apply IH2; assumption].
      * intros [H | [_ H]]; [apply MAltL, Hseq, H | apply MAltR, IH2, H].
    + rewrite Hseq. split; [auto|]. intros [H | [H _]]; [exact H|].
      apply nullable_matches in H. congruence.
  - rewrite mkAlt_matches. split.
    + intros H. apply matches_alt_inv in H as [H|H];
        [apply MAltL, IH1 | apply MAltR, IH2]; assumption.
    + intros H. apply matches_alt_inv in H as [H|H];
        [apply MAltL, IH1 | apply MAltR, IH2]; assumption.
  - rewrite mkSeq_matches. split.
    + intros H. apply matches_seq_inv in H as (s1 & s2 & -> & H1 & H2).
      apply IH in H1. exact (MStarApp r (String c s1) s2 H1 H2).
    + intros H. destruct (star_cons r _ H c s eq_refl) as (s1 & s2 & -> & H1 & H2).
      constructor; [apply IH|]; assumption.
Qed.

(** The matcher decides the language of the expression. *)
Lemma regexTest_matches (r : Regex) (s : string) :
  regexTest r s = true <-> matches r s.
Proof.
  revert r. induction s as [|c s IH]; intros r; simpl.
  - apply nullable_matches.
  - rewrite IH. apply deriv_matches.
Qed.

Lemma allChars_app (p : ascii -> bool) (a b : string) :
  allChars p (a ++ b) = allChars p a && allChars p b.
Proof.
  induction a as [|x a IH]; [reflexivity|]. rewrite append_cons. simpl.
  rewrite IH, andb_assoc. reflexivity.
Qed.

Lemma matches_star_class (p : ascii -> bool) (s : string) :
  matches (RStar (RClass p)) s <-> allChars p s = true.
Proof.
  split.
  - intros H. remember (RStar (RClass p)) as r0 eqn:Hr. revert Hr.
    induction H as [| | | | | r' | r' s1 s2 H1 _ H2 IH2]; intros Hr; try discriminate Hr.
    + reflexivity.
    + injection Hr as ->. apply matches_class_inv in H1 as (c & -> & Hc).
      rewrite append_cons, append_nil_l. simpl. rewrite Hc. auto.
  - induction s as [|c s IH]; simpl; [constructor|].
    intros H. apply andb_true_iff in H as [Hc Hs].
    exact (MStarApp (RClass p) (String c "") s (MClass p c Hc) (IH Hs)).
Qed.

Lemma matches_plus_class (p : ascii -> bool) (s : string) :
  matches (RPlus (RClass p)) s <-> s <> "" /\ allChars p s = true.
Proof.
  unfold RPlus. split.
  - intros H. apply matches_seq_inv in H as (s1 & s2 & -> & H1 & H2).
    apply matches_class_inv in H1 as (c & -> & Hc). apply matches_star_class in H2.
    rewrite append_cons, append_nil_l. simpl. rewrite Hc, H2. split; [discriminate | reflexivity].
  - intros [Hne H]. destruct s as [|c s]; [contradiction|]. simpl in H.
    apply andb_true_iff in H as [Hc Hs].
    exact (MSeq _ _ (String c "") s (MClass p c Hc) (proj2 (matches_star_class p s) Hs)).
Qed.

Lemma matches_char (c : ascii) (s : string) :
  matches (RClass (Ascii.eqb c)) s <-> s = String c "".
Proof.
  split.
  - intros H. apply matches_class_inv in H as (c' & -> & Hc).
    apply Ascii.eqb_eq in Hc. subst. reflexivity.
  - intros ->. constructor. apply Ascii.eqb_refl.
Qed.

(** ** The e-mail format and the contact form *)

Lemma emailRegex_shape (s : string) : regexTest emailRegex s = true -> emailShape s.
Proof.
  rewrite regexTest_matches. unfold emailRegex, emailShape. intros H.
  apply matches_seq_inv in H as (a & s1 & -> & Ha & H).
  apply matches_seq_inv in H as (at1 & s2 & -> & Hat & H).
  apply matches_seq_inv in H as (b & s3 & -> & Hb & H).
  apply matches_seq_inv in H as (dot & c & -> & Hdot & Hc).
  apply matches_char in Hat as ->. apply matches_char in Hdot as ->.
  apply matches_plus_class in Ha as [Ha1 Ha2].
  apply matches_plus_class in Hb as [Hb1 Hb2].
  apply matches_plus_class in Hc as [Hc1 Hc2].
  exists a, b, c. repeat split; auto.
Qed.

(** X1. The e-mail format test of the contact controller (and of
    [isValidEmail]) accepts exactly the strings of the shape [a@b.c] in
    which [a], [b] and [c] are non-empty and contain neither white space nor
    "@" ([b] and [c] may contain dots). *)
Theorem X1_email_format_is_a_at_b_dot_c (s : string) :
  regexTest emailRegex s = true <-> emailShape s.
Proof.
  split; [apply emailRegex_shape|].
  rewrite regexTest_matches. unfold emailRegex, emailShape.
  intros (a & b & c & -> & Ha & Hb & Hc & Ha' & Hb' & Hc').
  constructor; [apply matches_plus_class; auto|].
  constructor; [apply matches_char; reflexivity|].
  constructor; [apply matches_plus_class; auto|].
  constructor; [apply matches_char; reflexivity|].
  apply matches_plus_class; auto.
Qed.

Lemma countChar_app (x : ascii) (a b : string) :
  countChar x (a ++ b) = (countChar x a + countChar x b)%nat.
Proof.
  induction a as [|y a IH]; [reflexivity|]. rewrite append_cons. simpl. rewrite IH. lia.
Qed.

Lemma notSpaceNorAt_facts (s : string) :
  allChars notSpaceNorAt s = true ->
  countChar "@" s = 0%nat /\ allChars (fun c => negb (isWhiteSpace c)) s = true.
Proof.
  induction s as [|c s IH]; simpl; [auto|].
  intros H. apply andb_true_iff in H as [Hc Hs]. destruct (IH Hs) as [IH1 IH2].
  unfold notSpaceNorAt in Hc. apply andb_true_iff in Hc as [Hw Hat].
  rewrite Hw, IH2. destruct (Ascii.eqb c "@"); [discriminate|]. simpl. auto.
Qed.

(** X2. An accepted e-mail address contains exactly one "@", no white
    space, and at least five characters. *)
Theorem X2_accepted_email_has_one_at_and_no_space (s : string) :
  regexTest emailRegex s = true ->
  countChar "@" s = 1%nat /\
  allChars (fun c => negb (isWhiteSpace c)) s = true /\
  (5 <= String.length s)%nat.
Proof.
  intros H. apply emailRegex_shape in H
    as (a & b & c & -> & Ha & Hb & Hc & Ha' & Hb' & Hc').
  apply notSpaceNorAt_facts in Ha' as [Ha1 Ha2].
  apply notSpaceNorAt_facts in Hb' as [Hb1 Hb2].
  apply notSpaceNorAt_facts in Hc' as [Hc1 Hc2].
  rewrite !countChar_app, !allChars_app, !append_length, Ha1, Hb1, Hc1, Ha2, Hb2, Hc2.
  split; [reflexivity|]. split; [reflexivity|].
  destruct a; [contradiction|]. destruct b; [contradiction|]. destruct c; [contradiction|].
  simpl. lia.
Qed.

Lemma X2_witness :
  regexTest emailRegex "ada@example.org" = true /\ countChar "@" "ada@example.org" = 1%nat.
Proof.
  split; [reflexivity|].
  apply (X2_accepted_email_has_one_at_and_no_space "ada@example.org"). reflexivity.
Defined.

Local Open Scope list_scope.

Lemma validateContactForm_eq (data : ContactForm) :
  validateContactForm data =
  if (String.length (trim (form_name data)) <? 2)%nat
  then Some "Name must be at least 2 characters long"
  else if negb (regexTest emailRegex (form_email data))
  then Some "Please provide a valid email address"
  else if (String.length (trim (form_message data)) <? 10)%nat
  then Some "Message must be at least 10 characters long"
  else None.
Proof.
  unfold validateContactForm, isValidEmail.
  destruct (String.eqb_spec (form_name data) "") as [->|_]; [reflexivity|].
  simpl. destruct (_ <? 2)%nat; [reflexivity|].
  destruct (String.eqb_spec (form_email data) "") as [->|_]; [reflexivity|].
  simpl. destruct (negb _); [reflexivity|].
  destruct (String.eqb_spec (form_message data) "") as [->|_]; reflexivity.
Qed.

Lemma validateContactForm_None (data : ContactForm) :
  validateContactForm data = None ->
  (2 <= String.length (trim (form_name data)))%nat /\
  regexTest emailRegex (form_email data) = true /\
  (10 <= String.length (trim (form_message data)))%nat.
Proof.
  rewrite validateContactForm_eq.
  destruct (Nat.ltb_spec (String.length (trim (form_name data))) 2); [discriminate|].
  destruct (regexTest emailRegex (form_email data)); simpl; [|discriminate].
  destruct (Nat.ltb_spec (String.length (trim (form_message data))) 10); [discriminate|].
  auto.
Qed.

(** X3. [validateContactForm] accepts a form exactly when the trimmed name
    has at least 2 characters, the e-mail matches the format and the
    trimmed message has at least 10 characters; otherwise it reports the
    first of these that fails, in this order. *)
Theorem X3_validateContactForm_accepts_iff (data : ContactForm) :
  (validateContactForm data = None <->
   (2 <= String.length (trim (form_name data)))%nat /\
   regexTest emailRegex (form_email data) = true /\
   (10 <= String.length (trim (form_message data)))%nat) /\
  ((String.length (trim (form_name data)) < 2)%nat ->
   validateContactForm data = Some "Name must be at least 2 characters long") /\
  ((2 <= String.length (trim (form_name data)))%nat ->
   regexTest emailRegex (form_email data) = false ->
   validateContactForm data = Some "Please provide a valid email address") /\
  ((2 <= String.length (trim (form_name data)))%nat ->
   regexTest emailRegex (form_email data) = true ->
   (String.length (trim (form_message data)) < 10)%nat ->
   validateContactForm data = Some "Message must be at least 10 characters long").
Proof.
  rewrite validateContactForm_eq.
  destruct (Nat.ltb_spec (String.length (trim (form_name data))) 2) as [Hn|Hn].
  { split; [split; [discriminate | intros (H & _); lia]|].
    split; [reflexivity|]. split; intros; lia. }
  destruct (regexTest emailRegex (form_email data)) eqn:He; simpl.
  2:{ split; [split; [discriminate | intros (_ & H & _); discriminate]|].
      split; [intros; lia|]. split; [reflexivity | intros; discriminate]. }
  destruct (Nat.ltb_spec (String.length (trim (form_message data))) 10) as [Hm|Hm].
  { split; [split; [discriminate | intros (_ & _ & H); lia]|].
    split; [intros; lia|]. split; [intros; discriminate | reflexivity]. }
  split; [split; auto|]. split; [intros; lia|]. split; intros; [discriminate | lia].
Qed.

Lemma X3_witness :
  validateContactForm
    {| form_name := " A "; form_email := "ada@example.org";
       form_message := "Hello there, world" |} =
  Some "Name must be at least 2 characters long".
Proof.
  apply (proj1 (proj2 (X3_validateContactForm_accepts_iff
                         {| form_name := " A "; form_email := "ada@example.org";
                            form_message := "Hello there, world" |}))).
  simpl. lia.
Defined.

Section ContactFacts.

Context {P : Platform}.

(** [validateConnection] never throws: a failed request and any answer
    whose [success] is not the boolean [true] give [false]. *)
Lemma validateConnection_eq (w : World P) :
  ContactService_validateConnection w =
  let a := fetch_relay P RelayTest (env w) in
  (mkWorld (conversationCache w) (fst a)
     (EvHttp RelayTest match snd a with inl e => Some e | inr _ => None end :: wire w),
   inr match snd a with
       | inl _ => false
       | inr result => isTrue (relay_success result)
       end).
Proof.
  unfold ContactService_validateConnection, tryCatch, bind, http, ret.
  destruct (fetch_relay P RelayTest (env w)) as [e1 [err|result]]; reflexivity.
Qed.

Lemma ContactService_sendMessage_eq (name email message : string) (w : World P) :
  ContactService_sendMessage name email message w =
  let a := fetch_relay P (RelaySubmit name email message) (env w) in
  (mkWorld (conversationCache w) (fst a)
     (EvHttp (RelaySubmit name email message)
        match snd a with inl e => Some e | inr _ => None end :: wire w),
   match relayFailure (snd a) with
   | Some e => inl e
   | None => inr tt
   end).
Proof.
  unfold ContactService_sendMessage, tryCatch, bind, http, ret, throw, relayFailure.
  destruct (fetch_relay P (RelaySubmit name email message) (env w)) as [e1 [err|result]];
    simpl; [reflexivity|].
  destruct (truthy (relay_success result)); reflexivity.
Qed.

End ContactFacts.

Section ContactOutcomes.

Context {P : Platform}.

Lemma ContactController_valid_eq (req : ContactRequest) (w : World P)
    (name email message : string) :
  contact_name req = Some name -> contact_email req = Some email ->
  contact_message req = Some message ->
  name <> "" -> email <> "" -> message <> "" ->
  regexTest emailRegex email = true ->
  ContactController_sendMessage req w =
  let v := ContactService_validateConnection w in
  match snd v with
  | inr true =>
      let s := ContactService_sendMessage name email message (fst v) in
      (fst s,
       match snd s with
       | inr _ => respond 200 (ContactBody true "Message sent successfully")
       | inl _ => respond 500 (ContactBody false "Failed to send message")
       end)
  | _ => (fst v, respond 503 (ContactBody false "Service unavailable"))
  end.
Proof.
  intros Hn He Hm Hn' He' Hm' Hre.
  unfold ContactController_sendMessage. rewrite Hn, He, Hm. simpl.
  destruct (String.eqb_spec name ""); [contradiction|].
  destruct (String.eqb_spec email ""); [contradiction|].
  destruct (String.eqb_spec message ""); [contradiction|].
  simpl. rewrite Hre. simpl. unfold bind at 1.
  rewrite validateConnection_eq. cbv zeta. simpl.
  destruct (match snd (fetch_relay P RelayTest (env w)) with
            | inl _ => false
            | inr result => isTrue (relay_success result)
            end); simpl; [|reflexivity].
  unfold bind, ret.
  destruct (ContactService_sendMessage name email message _) as [w2 [e|[]]]; reflexivity.
Qed.

End ContactOutcomes.


(** X5. A form that [validateContactForm] accepts also passes the
    validation of the contact controller: the controller does not answer
    400 and sends the connection probe to the relay. *)
Theorem X5_accepted_form_passes_controller (P : Platform) (data : ContactForm)
    (w : World P) :
  validateContactForm data = None ->
  let r := ContactController_sendMessage (formRequest data) w in
  status (snd r) <> 400 /\
  exists evs f, wire (fst r) = evs ++ [EvHttp RelayTest f] ++ wire w.
Proof.
  intros Hok r. subst r.
  apply validateContactForm_None in Hok as (Hn & He & Hm).
  assert (Hne : forall s k, (S k <= String.length (trim s))%nat -> s <> "").
  { intros s k H ->. simpl in H. lia. }
  assert (Hemail : form_email data <> "") by (intros E; rewrite E in He; discriminate).
  rewrite (ContactController_valid_eq (formRequest data) w
             (form_name data) (form_email data) (form_message data));
    eauto.
  cbv zeta. rewrite validateConnection_eq. cbv zeta. simpl.
  destruct (fetch_relay P RelayTest (env w)) as [e1 [err|result]]; simpl.
  { split; [discriminate|]. exists [], (Some err). reflexivity. }
  destruct (isTrue (relay_success result)).
  - rewrite ContactService_sendMessage_eq. cbv zeta. simpl.
    split; [destruct (relayFailure _); discriminate|].
    eexists [_], None. reflexivity.
  - split; [discriminate|]. exists [], None. reflexivity.
Qed.

Lemma X5_witness :
  let data := {| form_name := "Ada"; form_email := "ada@example.org";
                 form_message := "Hello there, world" |} in
  validateContactForm data = None /\
  status (snd (ContactController_sendMessage (formRequest data)
                 (Demo.world (Demo.script [] 0)))) <> 400.
Proof.
  intros data. split; [reflexivity|].
  apply (X5_accepted_form_passes_controller Demo.platform data
           (Demo.world (Demo.script [] 0))).
  reflexivity.
Defined.

(** ** The chat handler, step by step *)

Section HandlerFacts.

Context {P : Platform}.

Lemma createUser_eq (w : World P) :
  createUser w =
  let a := http_post_users P (env w) in
  (mkWorld (conversationCache w) (fst a) (EvHttp PostUsers (failureOf (snd a)) :: wire w),
   snd a).
Proof.
  unfold createUser, tryCatch, http, throw.
  destruct (http_post_users P (env w)) as [e1 [err|r]]; reflexivity.
Qed.

Lemma sendMessage_eq (userKey conversationId text : string) (w : World P) :
  sendMessage userKey conversationId text w =
  let a := http_post_messages P userKey conversationId text (env w) in
  (mkWorld
     match snd a with
     | inl _ => conversationCache w
     | inr _ => delete conversationId (conversationCache w)
     end
     (fst a)
     (EvHttp (PostMessages userKey conversationId text) (failureOf (snd a)) :: wire w),
   snd a).
Proof.
  unfold sendMessage, tryCatch, bind, http, modifyCache, ret, throw, setCache.
  destruct (http_post_messages P userKey conversationId text (env w)) as [e1 [err|r]];
    reflexivity.
Qed.

(** [createConversation] sends one request and leaves the cache alone. It
    returns a non-empty id, or throws an error whose message starts with
    "Failed to create conversation: ": followed by the message of the
    transport failure, or by "Invalid conversation creation response" when
    the answer has no id. *)
Lemma createConversation_cases (userKey : string) (w : World P) :
  let a := http_post_conversations P userKey (env w) in
  let r := createConversation userKey w in
  fst r = mkWorld (conversationCache w) (fst a)
            (EvHttp (PostConversations userKey) (failureOf (snd a)) :: wire w) /\
  snd r =
    match snd a with
    | inl e => inl (Err ("Failed to create conversation: " ++ err_message e))
    | inr answer =>
        if absent answer
        then inl (Err "Failed to create conversation: Invalid conversation creation response")
        else inr (default "" answer)
    end.
Proof.
  unfold createConversation, tryCatch, bind, http, ret, throw. simpl.
  destruct (http_post_conversations P userKey (env w)) as [e1 [err|answer]]; simpl;
    [auto|].
  destruct (absent answer); simpl; auto.
Qed.

Lemma ensureUser_eq (req : ChatRequest) (k : string * option string -> M P HttpResponse)
    (w : World P) :
  ensureUser req k w =
  match resolveUser req w with
  | (w', inl _) =>
      (w', inr (respond 500 (ErrorBody "Failed to create user session"
                               "USER_CREATION_FAILED")))
  | (w', inr user) => k user w'
  end.
Proof.
  unfold ensureUser, resolveUser. destruct (absent (req_userKey req)); [|reflexivity].
  unfold orRespond, bind, ret.
  destruct (createUser w) as [w' [e|u]]; reflexivity.
Qed.

Lemma ensureConversation_eq (req : ChatRequest) (currentUserKey : string)
    (k : string -> M P HttpResponse) (w : World P) :
  ensureConversation req currentUserKey k w =
  match resolveConversation req currentUserKey w with
  | (w', inl _) =>
      (w', inr (respond 500 (ErrorBody "Failed to create conversation"
                               "CONVERSATION_CREATION_FAILED")))
  | (w', inr conversationId) => k conversationId w'
  end.
Proof.
  unfold ensureConversation, resolveConversation.
  destruct (absent (req_conversationId req)); reflexivity.
Qed.

(** The handler on a message that passes validation, stage by stage. *)
Lemma handleChatMessage_valid (req : ChatRequest) (text : string) (w : World P) :
  req_message req = JsString text -> validText text ->
  handleChatMessage req w =
  match resolveUser req (fst (now w)) with
  | (w2, inl _) =>
      (w2, respond 500 (ErrorBody "Failed to create user session" "USER_CREATION_FAILED"))
  | (w2, inr (currentUserKey, currentUserId)) =>
      match resolveConversation req currentUserKey w2 with
      | (w3, inl _) =>
          (w3, respond 500 (ErrorBody "Failed to create conversation"
                              "CONVERSATION_CREATION_FAILED"))
      | (w3, inr currentConversationId) =>
          match sendMessage currentUserKey currentConversationId text w3 with
          | (w4, inl _) =>
              (w4, respond 500 (ErrorBody "Failed to send message" "MESSAGE_SEND_FAILED"))
          | (w4, inr sentMessage) =>
              let a := waitForBotResponse currentUserKey currentConversationId
                         (msg_id (resp_message sentMessage)) w4 in
              let h := listMessages currentUserKey currentConversationId (fst a) in
              (fst (now (fst h)),
               respond 200 (ChatBody
                 {| cr_message := sentMessage;
                    cr_botResponse :=
                      match snd a with inr reply => reply | inl _ => None end;
                    cr_conversationId := currentConversationId;
                    cr_isStarted := true;
                    cr_messages :=
                      match snd h with inr response => messages response | inl _ => [] end;
                    cr_userKey := currentUserKey;
                    cr_userId := currentUserId |}))
          end
      end
  end.
Proof.
  intros Hm [Htrim Hlen].
  unfold handleChatMessage, bind at 1.
  destruct (now_ok w) as [t0 ->].
  unfold handleChatMessageBody. rewrite Hm. simpl.
  assert (Hne : text <> "") by (intros ->; apply Htrim; reflexivity).
  destruct (String.eqb_spec text ""); [contradiction|]. simpl.
  destruct (Nat.eqb_spec (String.length (trim text)) 0) as [Hz|_].
  { destruct (trim text); [contradiction | discriminate]. }
  destruct (Nat.ltb_spec 5000 (String.length text)); [lia|].
  rewrite ensureUser_eq.
  destruct (resolveUser req (fst (now w))) as [w2 [e|[currentUserKey currentUserId]]];
    [reflexivity|].
  simpl. rewrite ensureConversation_eq.
  destruct (resolveConversation req currentUserKey w2) as [w3 [e|currentConversationId]];
    [reflexivity|].
  unfold orRespond.
  destruct (sendMessage currentUserKey currentConversationId text w3)
    as [w4 [e|sentMessage]]; [reflexivity|].
  unfold bind at 1. unfold orDefault at 1, tryCatch at 1.
  destruct (waitForBotResponse currentUserKey currentConversationId _ w4)
    as [w5 [e|reply]]; simpl.
  - unfold ret at 1. unfold bind at 1. unfold orDefault, tryCatch, bind at 1.
    destruct (listMessages currentUserKey currentConversationId w5) as [w6 [e'|response]];
      simpl; unfold ret at 1; unfold bind;
      destruct (now_ok w6) as [t1 ->]; reflexivity.
  - unfold bind at 1. unfold orDefault, tryCatch, bind at 1.
    destruct (listMessages currentUserKey currentConversationId w5) as [w6 [e'|response]];
      simpl; unfold ret at 1; unfold bind;
      destruct (now_ok w6) as [t1 ->]; reflexivity.
Qed.

End HandlerFacts.

Section HandlerWire.

Context {P : Platform}.

Lemma sleeps_app (a b : list Event) : sleeps (a ++ b) = (sleeps a + sleeps b)%nat.
Proof. unfold sleeps. rewrite List.filter_app, length_app. reflexivity. Qed.

Lemma gets_app (a b : list Event) : gets (a ++ b) = (gets a + gets b)%nat.
Proof. unfold gets. rewrite List.filter_app, length_app. reflexivity. Qed.

Lemma waitForBotResponse_wire (userKey conversationId lastMessageId : string)
    (w : World P) :
  exists evs,
    wire (fst (waitForBotResponse userKey conversationId lastMessageId w)) = evs ++ wire w /\
    (sleeps evs <= 15)%nat /\ (gets evs <= sleeps evs)%nat /\
    Forall (waiterEvent userKey conversationId) evs.
Proof.
  rewrite waitForBotResponse_eq, waitForBotResponseRun_eq.
  destruct (waitLoop userKey conversationId lastMessageId MAX_RETRIES 0
              initialLoopState w) as [w' res] eqn:Hrun.
  apply waitLoop_wire in Hrun as (evs & Hw & Hs & Hg & Hev & _).
  exists evs. unfold MAX_RETRIES in Hs. destruct res as [e|run]; simpl; auto.
Qed.

(** The events after a successful send: the polls of the waiter and the
    request of the history step, all of them for this conversation. *)
Lemma reply_and_history_wire (userKey conversationId lastMessageId : string)
    (w : World P) :
  let a := waitForBotResponse userKey conversationId lastMessageId w in
  let h := listMessages userKey conversationId (fst a) in
  exists evs,
    wire (fst (now (fst h))) = evs ++ wire w /\
    (sleeps evs <= 15)%nat /\ (gets evs <= 16)%nat /\
    length (List.filter isHttpEvent evs) = gets evs /\
    Forall (waiterEvent userKey conversationId) evs.
Proof.
  intros a h. subst a h.
  destruct (waitForBotResponse_wire userKey conversationId lastMessageId w)
    as (evs & Hw & Hs & Hg & Hev).
  set (w5 := fst (waitForBotResponse userKey conversationId lastMessageId w)) in *.
  assert (Hhttp : forall l, Forall (waiterEvent userKey conversationId) l ->
                            length (List.filter isHttpEvent l) = gets l).
  { intros l Hl. unfold gets. induction Hl as [|ev l Hev' _ IH]; [reflexivity|].
    simpl. destruct ev as [c f|ms]; simpl in *; [subst c; simpl; rewrite IH|]; auto. }
  rewrite now_wire.
  destruct (listMessages userKey conversationId w5) as [w6 r] eqn:Hl.
  apply listMessages_wire in Hl. simpl.
  destruct Hl as [[Hw6 _] | [[Hw6 _] | (e & Hw6 & _)]].
  - exists evs. rewrite Hw6, Hw. repeat split; auto; lia.
  - exists (EvHttp (GetMessages userKey conversationId) None :: evs).
    assert (Hall : Forall (waiterEvent userKey conversationId)
                     (EvHttp (GetMessages userKey conversationId) None :: evs))
      by (constructor; [reflexivity | exact Hev]).
    rewrite Hw6, Hw. split; [reflexivity|]. split; [exact Hs|].
    split; [unfold gets in *; simpl; lia|]. split; [apply Hhttp, Hall | exact Hall].
  - exists (EvHttp (GetMessages userKey conversationId) (Some e) :: evs).
    assert (Hall : Forall (waiterEvent userKey conversationId)
                     (EvHttp (GetMessages userKey conversationId) (Some e) :: evs))
      by (constructor; [reflexivity | exact Hev]).
    rewrite Hw6, Hw. split; [reflexivity|]. split; [exact Hs|].
    split; [unfold gets in *; simpl; lia|]. split; [apply Hhttp, Hall | exact Hall].
Qed.

Lemma resolveUser_cases (req : ChatRequest) (w : World P) :
  (absent (req_userKey req) = false /\
   resolveUser req w = (w, inr (default "" (req_userKey req), req_userId req))) \/
  (absent (req_userKey req) = true /\
   exists f, wire (fst (resolveUser req w)) = EvHttp PostUsers f :: wire w /\
             conversationCache (fst (resolveUser req w)) = conversationCache w /\
             (f = None <-> exists u, snd (resolveUser req w) = inr u)).
Proof.
  unfold resolveUser. destruct (absent (req_userKey req)); [right | left; auto].
  split; [reflexivity|]. unfold bind, ret. rewrite createUser_eq. cbv zeta.
  destruct (http_post_users P (env w)) as [e1 [err|u]]; simpl.
  - exists (Some err). repeat split; auto; [discriminate | intros [u [=]]].
  - exists None. repeat split; eauto.
Qed.

Lemma resolveConversation_cases (req : ChatRequest) (currentUserKey : string)
    (w : World P) :
  (absent (req_conversationId req) = false /\
   resolveConversation req currentUserKey w = (w, inr (default "" (req_conversationId req)))) \/
  (absent (req_conversationId req) = true /\
   exists f, wire (fst (resolveConversation req currentUserKey w)) =
               EvHttp (PostConversations currentUserKey) f :: wire w /\
             conversationCache (fst (resolveConversation req currentUserKey w)) =
               conversationCache w).
Proof.
  unfold resolveConversation. destruct (absent (req_conversationId req)); [right | left; auto].
  split; [reflexivity|].
  destruct (createConversation_cases currentUserKey w) as [Hw _]. rewrite Hw. simpl. eauto.
Qed.

End HandlerWire.

(** ** The chat handler: validation, fatal steps, bounded work *)

Lemma handleChatMessage_valid_status (P : Platform) (req : ChatRequest) (text : string)
    (w : World P) :
  req_message req = JsString text -> validText text ->
  status (snd (handleChatMessage req w)) = 200 \/
  status (snd (handleChatMessage req w)) = 500.
Proof.
  intros Hm Hv. rewrite (handleChatMessage_valid req text w Hm Hv).
  destruct (resolveUser req (fst (now w))) as [w2 [e|[key uid]]]; [auto|].
  destruct (resolveConversation req key w2) as [w3 [e|cid]]; [auto|].
  destruct (sendMessage key cid text w3) as [w4 [e|sentMessage]]; auto.
Qed.

(** A string that is not blank and has more than 5000 characters is
    refused as too long. *)
Lemma chat_too_long_message (P : Platform) (req : ChatRequest) (w : World P)
    (text : string) :
  req_message req = JsString text -> trim text <> "" ->
  (5000 < String.length text)%nat ->
  handleChatMessage req w =
    (fst (now w),
     respond 400 (ErrorBody "Message is too long (max 5000 characters)"
                    "MESSAGE_TOO_LONG")).
Proof.
  intros Hm Htrim Hlong. apply handleChatMessage_rejected. intros w1.
  unfold handleChatMessageBody. rewrite Hm. simpl.
  destruct (String.eqb_spec text "") as [->|_]; [exfalso; apply Htrim; reflexivity|].
  simpl.
  destruct (Nat.eqb_spec (String.length (trim text)) 0) as [Hz|_].
  { destruct (trim text); [contradiction | discriminate]. }
  destruct (Nat.ltb_spec 5000 (String.length text)); [reflexivity | lia].
Qed.

(** X6. For a [message] that is missing or a string, the chat handler
    answers 400 exactly when the message is missing, empty, made of white
    space only, or longer than 5000 characters; the length that counts is
    that of the string as sent, not of the trimmed string. The error code
    is [INVALID_MESSAGE] for a missing or empty message, [EMPTY_MESSAGE] for
    white space only, [MESSAGE_TOO_LONG] otherwise; no request is sent
    upstream. *)
Theorem X6_chat_validation_is_exact (P : Platform) (req : ChatRequest) (w : World P) :
  (req_message req = JsUndefined \/ req_message req = JsNull \/
   exists text, req_message req = JsString text) ->
  let r := snd (handleChatMessage req w) in
  (status r = 400 <->
   forall text, req_message req = JsString text ->
     allChars isWhiteSpace text = true \/ (5000 < String.length text)%nat) /\
  (status r = 400 -> wire (fst (handleChatMessage req w)) = wire w) /\
  (forall text, req_message req = JsString text ->
     (text = "" ->
      body r = ErrorBody "Message is required and must be a string" "INVALID_MESSAGE") /\
     (text <> "" -> allChars isWhiteSpace text = true ->
      body r = ErrorBody "Message cannot be empty" "EMPTY_MESSAGE") /\
     (allChars isWhiteSpace text = false -> (5000 < String.length text)%nat ->
      body r = ErrorBody "Message is too long (max 5000 characters)" "MESSAGE_TOO_LONG")).
Proof.
  intros Hm r. subst r.
  destruct Hm as [Hm | [Hm | [text Hm]]].
  - rewrite chat_missing_message by auto. simpl.
    split; [split; [intros _ text Ht; congruence | reflexivity]|].
    split; [intros _; apply now_wire | intros text Ht; congruence].
  - rewrite chat_missing_message by auto. simpl.
    split; [split; [intros _ text Ht; congruence | reflexivity]|].
    split; [intros _; apply now_wire | intros text Ht; congruence].
  - destruct (String.eqb_spec text "") as [->|Hne].
    { rewrite chat_missing_message by auto. simpl.
      split; [split; [intros _ t Ht; rewrite Hm in Ht; injection Ht as <-; auto
                     | reflexivity]|].
      split; [intros _; apply now_wire|].
      intros t Ht. rewrite Hm in Ht. injection Ht as <-.
      split; [reflexivity|]. split; [contradiction | discriminate]. }
    destruct (allChars isWhiteSpace text) eqn:Hblank.
    { pose proof (proj2 (trim_blank text) Hblank) as Htrim.
      rewrite (chat_blank_message req w text) by auto. simpl.
      split; [split; [intros _ t Ht; rewrite Hm in Ht; injection Ht as <-; auto
                     | reflexivity]|].
      split; [intros _; apply now_wire|].
      intros t Ht. rewrite Hm in Ht. injection Ht as <-.
      split; [contradiction|]. split; [reflexivity | congruence]. }
    assert (Htrim : trim text <> "")
      by (intros E; apply trim_blank in E; congruence).
    destruct (Nat.ltb_spec 5000 (String.length text)) as [Hlong|Hshort].
    { rewrite (handleChatMessage_rejected req w
                 (respond 400 (ErrorBody "Message is too long (max 5000 characters)"
                                 "MESSAGE_TOO_LONG"))).
      - simpl. split; [split; [intros _ t Ht; rewrite Hm in Ht; injection Ht as <-; auto
                              | reflexivity]|].
        split; [intros _; apply now_wire|].
        intros t Ht. rewrite Hm in Ht. injection Ht as <-.
        split; [contradiction|]. split; [congruence | reflexivity].
      - intros w1. unfold handleChatMessageBody. rewrite Hm. simpl.
        destruct (String.eqb_spec text ""); [contradiction|]. simpl.
        destruct (Nat.eqb_spec (String.length (trim text)) 0) as [Hz|_].
        { destruct (trim text); [contradiction | discriminate]. }
        destruct (Nat.ltb_spec 5000 (String.length text)); [reflexivity | lia]. }
    assert (Hvalid : validText text) by (split; assumption).
    destruct (handleChatMessage_valid_status P req text w Hm Hvalid) as [Hs|Hs].
    + split; [split|].
      * rewrite Hs. discriminate.
      * intros H. destruct (H text Hm) as [H'|H']; [congruence | lia].
      * split; [rewrite Hs; discriminate|].
        intros t Ht. rewrite Hm in Ht. injection Ht as <-.
        split; [contradiction|]. split; [congruence | intros; lia].
    + split; [split|].
      * rewrite Hs. discriminate.
      * intros H. destruct (H text Hm) as [H'|H']; [congruence | lia].
      * split; [rewrite Hs; discriminate|].
        intros t Ht. rewrite Hm in Ht. injection Ht as <-.
        split; [contradiction|]. split; [congruence | intros; lia].
Qed.

(** A message of 4999 letters with two spaces in front: 4999 characters
    after trimming, 5001 as sent, refused as too long. *)
Lemma X6_witness :
  String.length (trim Demo_padded) = 4999%nat /\
  body (snd (handleChatMessage
               {| req_message := JsString Demo_padded; req_userId := None;
                  req_conversationId := None; req_userKey := None |}
               (Demo.world (Demo.script [] 0)))) =
    ErrorBody "Message is too long (max 5000 characters)" "MESSAGE_TOO_LONG".
Proof.
  split; [vm_compute; reflexivity|].
  apply (proj2 (proj2 (X6_chat_validation_is_exact Demo.platform
                         {| req_message := JsString Demo_padded; req_userId := None;
                            req_conversationId := None; req_userKey := None |}
                         (Demo.world (Demo.script [] 0))
                         (or_intror (or_intror (ex_intro _ Demo_padded eq_refl)))))
           Demo_padded eq_refl).
  - vm_compute; reflexivity.
  - apply Nat.ltb_lt. vm_compute; reflexivity.
Defined.



(** X8. The three fatal steps. A failed user creation answers 500
    [USER_CREATION_FAILED] after that single request. A failed conversation
    creation answers 500 [CONVERSATION_CREATION_FAILED] and nothing follows
    the failed step. A failed send answers 500 [MESSAGE_SEND_FAILED]; the
    failed request is the last event (the waiter never starts, no list is
    requested) and the cache is left as it was. *)
Theorem X8_fatal_steps (P : Platform) (req : ChatRequest) (text : string) (w : World P) :
  req_message req = JsString text -> validText text ->
  (forall e1 e,
      absent (req_userKey req) = true ->
      http_post_users P (env (fst (now w))) = (e1, inl e) ->
      snd (handleChatMessage req w) =
        respond 500 (ErrorBody "Failed to create user session" "USER_CREATION_FAILED") /\
      wire (fst (handleChatMessage req w)) = EvHttp PostUsers (Some e) :: wire w) /\
  (forall w2 w3 currentUserKey currentUserId e,
      resolveUser req (fst (now w)) = (w2, inr (currentUserKey, currentUserId)) ->
      resolveConversation req currentUserKey w2 = (w3, inl e) ->
      handleChatMessage req w =
        (w3, respond 500 (ErrorBody "Failed to create conversation"
                            "CONVERSATION_CREATION_FAILED")) /\
      exists f, wire w3 = EvHttp (PostConversations currentUserKey) f :: wire w2) /\
  (forall w2 w3 w4 currentUserKey currentUserId currentConversationId e,
      resolveUser req (fst (now w)) = (w2, inr (currentUserKey, currentUserId)) ->
      resolveConversation req currentUserKey w2 = (w3, inr currentConversationId) ->
      sendMessage currentUserKey currentConversationId text w3 = (w4, inl e) ->
      handleChatMessage req w =
        (w4, respond 500 (ErrorBody "Failed to send message" "MESSAGE_SEND_FAILED")) /\
      wire w4 = EvHttp (PostMessages currentUserKey currentConversationId text) (Some e)
                  :: wire w3 /\
      conversationCache w4 = conversationCache w3).
Proof.
  intros Hm Hv. split; [|split].
  - intros e1 e Habs Hpost.
    rewrite (handleChatMessage_valid req text w Hm Hv).
    unfold resolveUser. rewrite Habs. unfold bind, ret. rewrite createUser_eq. cbv zeta.
    rewrite Hpost. simpl. rewrite now_wire. auto.
  - intros w2 w3 key uid e Hu Hc.
    rewrite (handleChatMessage_valid req text w Hm Hv), Hu, Hc. split; [reflexivity|].
    destruct (resolveConversation_cases req key w2) as [[_ Heq] | [_ (f & Hw & _)]].
    + rewrite Heq in Hc. discriminate.
    + rewrite Hc in Hw. eauto.
  - intros w2 w3 w4 key uid cid e Hu Hc Hs.
    rewrite (handleChatMessage_valid req text w Hm Hv), Hu, Hc, Hs.
    split; [reflexivity|].
    rewrite sendMessage_eq in Hs. cbv zeta in Hs.
    destruct (http_post_messages P key cid text (env w3)) as [e1 [err|r]]; simpl in Hs.
    + injection Hs as <- <-. simpl. auto.
    + discriminate.
Qed.

Lemma X8_witness :
  let req := {| req_message := JsString "Hello"; req_userId := None;
                req_conversationId := None; req_userKey := None |} in
  let s := {| Demo.clock := 0; Demo.lag := 0; Demo.pages := [];
              Demo.sent := inl (Err "timeout of 30000ms exceeded");
              Demo.relay := inl (Err "unused") |} in
  snd (handleChatMessage req (Demo.world s)) =
    respond 500 (ErrorBody "Failed to send message" "MESSAGE_SEND_FAILED") /\
  sleeps (wire (fst (handleChatMessage req (Demo.world s)))) = 0%nat.
Proof.
  intros req s. split; [|vm_compute; reflexivity].
  assert (Hvalid : validText "Hello") by (split; [vm_compute; discriminate | simpl; lia]).
  pose proof (X8_fatal_steps Demo.platform req "Hello" (Demo.world s) eq_refl Hvalid)
    as (_ & _ & Hsend).
  pose (w2 := fst (resolveUser req (fst (now (Demo.world s))))).
  pose (w3 := fst (resolveConversation req "key-1" w2)).
  pose (w4 := fst (sendMessage "key-1" "conv-1" "Hello" w3)).
  destruct (Hsend w2 w3 w4 "key-1" (Some "user-1") "conv-1"
              (Err "timeout of 30000ms exceeded")) as [H _].
  - vm_compute; reflexivity.
  - vm_compute; reflexivity.
  - vm_compute; reflexivity.
  - rewrite H. reflexivity.
Defined.

Section Bounds.

Context {P : Platform}.

Lemma within_refl (w w' : World P) : wire w' = wire w -> within 0 0 w w'.
Proof. intros H. exists []. simpl. repeat split; auto. Qed.

Lemma within_trans (s1 h1 s2 h2 : nat) (w w1 w2 : World P) :
  within s1 h1 w w1 -> within s2 h2 w1 w2 -> within (s1 + s2) (h1 + h2) w w2.
Proof.
  intros (a & Ha & Hsa & Hha & Hfa) (b & Hb & Hsb & Hhb & Hfb).
  exists (b ++ a). rewrite Hb, Ha, app_assoc. split; [reflexivity|].
  rewrite sleeps_app, List.filter_app, length_app.
  split; [lia|]. split; [lia|]. apply Forall_app; auto.
Qed.

Lemma within_weaken (s h s' h' : nat) (w w' : World P) :
  within s h w w' -> (s <= s')%nat -> (h <= h')%nat -> within s' h' w w'.
Proof.
  intros (a & Ha & Hs & Hh & Hf) Hs' Hh'. exists a. repeat split; auto; lia.
Qed.

Lemma within_http (w w' : World P) (c : Call) (f : option JsError) :
  wire w' = EvHttp c f :: wire w -> within 0 1 w w'.
Proof.
  intros H. exists [EvHttp c f]. rewrite H. simpl.
  repeat split; auto. repeat constructor.
Qed.

Lemma within_resolveUser (req : ChatRequest) (w : World P) :
  within 0 1 w (fst (resolveUser req w)).
Proof.
  destruct (resolveUser_cases req w) as [[_ ->] | [_ (f & Hw & _)]].
  - apply (within_weaken 0 0); [apply within_refl; reflexivity | lia | lia].
  - eapply within_http; eauto.
Qed.

Lemma within_resolveConversation (req : ChatRequest) (key : string) (w : World P) :
  within 0 1 w (fst (resolveConversation req key w)).
Proof.
  destruct (resolveConversation_cases req key w) as [[_ ->] | [_ (f & Hw & _)]].
  - apply (within_weaken 0 0); [apply within_refl; reflexivity | lia | lia].
  - eapply within_http; eauto.
Qed.

Lemma within_sendMessage (key cid text : string) (w : World P) :
  within 0 1 w (fst (sendMessage key cid text w)).
Proof. rewrite sendMessage_eq. cbv zeta. simpl. eapply within_http. reflexivity. Qed.

Lemma waiterEvent_sleepOk (key cid : string) (evs : list Event) :
  Forall (waiterEvent key cid) evs -> Forall sleepOk evs.
Proof.
  intros H. induction H as [|ev l Hev _ IH]; constructor; auto.
  destruct ev; simpl in *; auto.
Qed.

Lemma within_reply_and_history (key cid id : string) (w : World P) :
  within 15 16 w
    (fst (now (fst (listMessages key cid (fst (waitForBotResponse key cid id w)))))).
Proof.
  destruct (reply_and_history_wire key cid id w) as (evs & Hw & Hs & Hg & Hh & Hev).
  exists evs. cbv zeta in Hw. split; [exact Hw|]. split; [exact Hs|].
  split; [lia|]. eapply waiterEvent_sleepOk; eauto.
Qed.

End Bounds.


(** ** The cache, beyond the claims *)

(** X10. [getCachedMessages] for one conversation purges the whole map: by
    the clock reading [t1] of its eviction pass, it removes every entry, of
    any conversation, with [t1 - lastUpdated > ttl] and keeps every other
    entry unchanged. An entry whose age has reached the time-to-live
    exactly is therefore kept in the map, although the lookup treats it as
    a miss. *)
Theorem X10_get_evicts_every_expired_entry (P : Platform) (w : World P)
    (conversationId : string) :
  let t1 := snd (Date_now P (env w)) in
  let t2 := snd (Date_now P (fst (Date_now P (env w)))) in
  let w' := fst (getCachedMessages conversationId w) in
  (forall k entry,
      conversationCache w' !! k = Some entry <->
      conversationCache w !! k = Some entry /\ t1 - lastUpdated entry <= ttl entry) /\
  (forall entry,
      conversationCache w !! conversationId = Some entry ->
      t1 - lastUpdated entry <= ttl entry -> ttl entry <= t2 - lastUpdated entry ->
      snd (getCachedMessages conversationId w) = inr None /\
      conversationCache w' !! conversationId = Some entry) /\
  wire w' = wire w.
Proof.
  intros t1 t2 w'. subst w'. rewrite getCachedMessages_eq. cbv zeta. simpl.
  fold t1 t2. split; [|split; [|reflexivity]].
  - intros k entry. apply clearExpiredAt_lookup.
  - intros entry He H1 H2.
    assert (Hkept : clearExpiredAt t1 (conversationCache w) !! conversationId = Some entry)
      by (apply clearExpiredAt_lookup; auto).
    split; [|exact Hkept].
    unfold lookupFreshAt. rewrite Hkept.
    destruct (Z.ltb_spec (t2 - lastUpdated entry) (ttl entry)); [lia | reflexivity].
Qed.

Lemma X10_witness :
  conversationCache (Demo.cachedWorld 300000) !! "conv-1" = Some (freshEntry 0 [Demo.hello]) /\
  snd (getCachedMessages "conv-1" (Demo.cachedWorld 300000)) = inr None /\
  conversationCache (fst (getCachedMessages "conv-1" (Demo.cachedWorld 300000))) !! "conv-1" =
    Some (freshEntry 0 [Demo.hello]).
Proof.
  split; [vm_compute; reflexivity|].
  apply (proj1 (proj2 (X10_get_evicts_every_expired_entry Demo.platform
                         (Demo.cachedWorld 300000) "conv-1"))
           (freshEntry 0 [Demo.hello])).
  - vm_compute; reflexivity.
  - vm_compute; discriminate.
  - vm_compute; discriminate.
Defined.

(** X11. [sendMessage] touches the cache only on success and only for its
    own conversation: when the request fails, the same failure is thrown
    and the cache is left as it was (a stale entry of the conversation
    stays); when it succeeds, the entries of all other conversations are
    left as they were. Either way exactly one request is sent. *)
Theorem X11_send_touches_only_its_entry (P : Platform) (w : World P)
    (userKey conversationId text : string) :
  let a := http_post_messages P userKey conversationId text (env w) in
  let r := sendMessage userKey conversationId text w in
  snd r = snd a /\
  wire (fst r) =
    EvHttp (PostMessages userKey conversationId text) (failureOf (snd a)) :: wire w /\
  (forall e, snd a = inl e -> conversationCache (fst r) = conversationCache w) /\
  (forall k, k <> conversationId ->
             conversationCache (fst r) !! k = conversationCache w !! k).
Proof.
  intros a r. subst a r. rewrite sendMessage_eq. cbv zeta. simpl.
  split; [reflexivity|]. split; [reflexivity|].
  destruct (http_post_messages P userKey conversationId text (env w)) as [e1 [err|resp]];
    simpl.
  - auto.
  - split; [intros e [=]|]. intros k Hk. apply lookup_delete_ne. congruence.
Qed.

Lemma X11_witness :
  let s := {| Demo.clock := 10; Demo.lag := 0; Demo.pages := [];
              Demo.sent := inl (Err "Network Error");
              Demo.relay := inl (Err "unused") |} in
  let w := @mkWorld Demo.platform (<["conv-1" := freshEntry 0 [Demo.hello]]> ∅) s [] in
  snd (sendMessage "key-1" "conv-1" "Hello" w) = inl (Err "Network Error") /\
  conversationCache (fst (sendMessage "key-1" "conv-1" "Hello" w)) = conversationCache w.
Proof.
  intros s w. split; [vm_compute; reflexivity|].
  apply (proj1 (proj2 (proj2 (X11_send_touches_only_its_entry Demo.platform w
                                "key-1" "conv-1" "Hello")))
           (Err "Network Error")).
  vm_compute; reflexivity.
Defined.

Section ListFacts.

Context {P : Platform}.

(** After a successful [listMessages] the cache holds the returned list. *)
Lemma listMessages_stores (userKey conversationId : string) (w w1 : World P)
    (response : MessagesResponse) :
  listMessages userKey conversationId w = (w1, inr response) ->
  exists entry,
    conversationCache w1 !! conversationId = Some entry /\
    cache_messages entry = messages response.
Proof.
  unfold listMessages, tryCatch, bind. rewrite getCachedMessages_eq. cbv zeta.
  destruct (lookupFreshAt _ _ _) as [msgs|] eqn:Hl.
  - unfold ret. intros [= <- <-]. simpl.
    apply lookupFreshAt_Some in Hl as (entry & He & Hm & _). eauto.
  - unfold http, updateCache, bind, now, modifyCache, ret, throw, setEnv, setCache. simpl.
    destruct (http_get_messages P _ _ _) as [e1 [err|resp]]; simpl; [discriminate|].
    destruct (Date_now P e1) as [e2 t]. simpl.
    intros [= <- <-]. simpl. eexists. rewrite lookup_insert_eq. split; reflexivity.
Qed.

(** A fresh entry is served to any caller. *)
Lemma listMessages_hit (userKey conversationId : string) (w : World P)
    (entry : ConversationCache) :
  conversationCache w !! conversationId = Some entry ->
  snd (Date_now P (env w)) - lastUpdated entry <= ttl entry ->
  snd (Date_now P (fst (Date_now P (env w)))) - lastUpdated entry < ttl entry ->
  listMessages userKey conversationId w =
    (fst (getCachedMessages conversationId w),
     inr {| messages := cache_messages entry;
            meta := cachedMeta (cache_messages entry) |}).
Proof.
  intros He H1 H2. unfold listMessages, tryCatch, bind.
  rewrite getCachedMessages_eq. cbv zeta.
  assert (Hkept : clearExpiredAt (snd (Date_now P (env w))) (conversationCache w)
                    !! conversationId = Some entry)
    by (apply clearExpiredAt_lookup; auto).
  unfold lookupFreshAt. rewrite Hkept.
  destruct (Z.ltb_spec (snd (Date_now P (fst (Date_now P (env w)))) - lastUpdated entry)
              (ttl entry)); [reflexivity | lia].
Qed.

End ListFacts.

(** X12. The cache is keyed by the conversation id alone. After a
    successful [listMessages] for a conversation, and as long as the clock
    readings of the next call stay within the time-to-live of the stored
    entry, [listMessages] for that conversation with any user key returns
    the same message list without a request upstream: the key is not
    checked on a cache hit. *)
Theorem X12_cached_list_is_served_to_any_key (P : Platform) (w w1 : World P)
    (userKey conversationId : string) (response : MessagesResponse) :
  listMessages userKey conversationId w = (w1, inr response) ->
  exists entry,
    conversationCache w1 !! conversationId = Some entry /\
    cache_messages entry = messages response /\
    (snd (Date_now P (env w1)) - lastUpdated entry <= ttl entry ->
     snd (Date_now P (fst (Date_now P (env w1)))) - lastUpdated entry < ttl entry ->
     forall otherKey,
       snd (listMessages otherKey conversationId w1) =
         inr {| messages := messages response; meta := cachedMeta (messages response) |} /\
       wire (fst (listMessages otherKey conversationId w1)) = wire w1).
Proof.
  intros H. apply listMessages_stores in H as (entry & He & Hm).
  exists entry. split; [exact He|]. split; [exact Hm|].
  intros H1 H2 otherKey.
  rewrite (listMessages_hit otherKey conversationId w1 entry He H1 H2), Hm.
  split; [reflexivity|]. rewrite getCachedMessages_eq. reflexivity.
Qed.

Lemma X12_witness :
  let w := Demo.world (Demo.script [Demo.page [Demo.hello; Demo.reply1]] 0) in
  let w1 := fst (listMessages "key-1" "conv-1" w) in
  snd (listMessages "key-1" "conv-1" w) = Demo.page [Demo.hello; Demo.reply1] /\
  snd (listMessages "someone-else" "conv-1" w1) =
    inr (Demo.cached [Demo.hello; Demo.reply1]) /\
  wire (fst (listMessages "someone-else" "conv-1" w1)) = wire w1.
Proof.
  intros w w1. split; [vm_compute; reflexivity|].
  destruct (X12_cached_list_is_served_to_any_key Demo.platform w w1 "key-1" "conv-1"
              (Demo.response [Demo.hello; Demo.reply1]))
    as (entry & He & Hm & Hserve).
  - vm_compute; reflexivity.
  - assert (Hentry : entry = freshEntry 0 [Demo.hello; Demo.reply1]).
    { assert (Hc : conversationCache w1 !! "conv-1" =
                   Some (freshEntry 0 [Demo.hello; Demo.reply1]))
        by (vm_compute; reflexivity).
      rewrite He in Hc. injection Hc as ->. reflexivity. }
    subst entry. apply Hserve; vm_compute; [discriminate | reflexivity].
Defined.

(** ** The waiter, beyond the claims *)

Section SteadyFacts.

Context {P : Platform}.
Variables userKey conversationId lastMessageId : string.
Variable lo : Z.
Hypothesis steady : steadyClock P lo.

(** While the clock is steady, a poll on a cache that holds the list is a
    hit: it sleeps, sends nothing, and returns the list. *)
Lemma pollOnce_fresh (i : nat) (w : World P) (msgs : list BotpressMessage) :
  holds lo conversationId msgs w ->
  exists w' ms,
    pollOnce userKey conversationId i w =
      (w', inr {| messages := msgs; meta := cachedMeta msgs |}) /\
    holds lo conversationId msgs w' /\ wire w' = EvSleep ms :: wire w.
Proof.
  intros (entry & He & Hm & Httl & Hlo).
  unfold pollOnce, calculateBackoff, bind, random, ret, wait, setEnv.
  destruct (Math_random P (env w)) as [e1 rnd]. simpl.
  set (w1 := mkWorld _ _ _).
  assert (He1 : conversationCache w1 !! conversationId = Some entry) by exact He.
  pose proof (steady (env w1)) as [Ha1 Hb1].
  pose proof (steady (fst (Date_now P (env w1)))) as [Ha2 Hb2].
  rewrite (listMessages_hit userKey conversationId w1 entry He1) by lia.
  rewrite Hm. eexists _, _. split; [reflexivity|].
  rewrite getCachedMessages_eq. cbv zeta. simpl. split; [|reflexivity].
  exists entry. split; [|auto].
  apply clearExpiredAt_lookup. split; [exact He|].
  subst w1. simpl in Ha1, Hb1. rewrite Httl. lia.
Qed.

(** A poll on a cache without an entry for the conversation asks upstream;
    if that succeeds, the cache holds the answer. *)
Lemma pollOnce_miss (i : nat) (w : World P) :
  conversationCache w !! conversationId = None ->
  exists w' ms,
    (exists e, pollOnce userKey conversationId i w = (w', inl e) /\
               wire w' = EvHttp (GetMessages userKey conversationId) (Some e)
                           :: EvSleep ms :: wire w) \/
    (exists response,
        pollOnce userKey conversationId i w = (w', inr response) /\
        wire w' = EvHttp (GetMessages userKey conversationId) None
                    :: EvSleep ms :: wire w /\
        holds lo conversationId (messages response) w').
Proof.
  intros Hnone.
  unfold pollOnce, calculateBackoff, bind, random, ret, wait, setEnv.
  destruct (Math_random P (env w)) as [e1 rnd]. simpl.
  unfold listMessages, tryCatch, bind. rewrite getCachedMessages_eq. cbv zeta. simpl.
  unfold lookupFreshAt. rewrite clearExpiredAt_None by exact Hnone.
  unfold http, updateCache, bind, now, modifyCache, ret, throw, setEnv, setCache. simpl.
  destruct (http_get_messages P _ _ _) as [e2 [err|response]]; simpl.
  - eexists _, _. left. eexists. split; reflexivity.
  - pose proof (steady e2) as [Ha _].
    destruct (Date_now P e2) as [e3 t]. simpl in *.
    eexists _, _. right. eexists. split; [reflexivity|]. split; [reflexivity|].
    eexists. simpl. rewrite lookup_insert_eq. repeat split. exact Ha.
Qed.

(** If the held list does not contain the sent message, the loop runs to
    exhaustion on cache hits. *)
Lemma waitLoop_fresh_not_found (msgs : list BotpressMessage) (n : nat) :
  found lastMessageId msgs = false ->
  forall (i : nat) (st : LoopState) (w : World P),
    holds lo conversationId msgs w ->
    exists w' evs,
      waitLoop userKey conversationId lastMessageId n i st w =
        (w', inr (Exhausted, List.repeat msgs n)) /\
      wire w' = evs ++ wire w /\ gets evs = 0%nat /\
      holds lo conversationId msgs w'.
Proof.
  intros Hnf. induction n as [|n IH]; intros i st w Hh.
  - exists w, []. repeat split. exact Hh.
  - rewrite waitLoop_S.
    destruct (pollOnce_fresh i w msgs Hh) as (w1 & ms & -> & Hh1 & Hw1). simpl.
    assert (Hstep : pollStep (Date_valueOf P) lastMessageId st msgs = Continue st).
    { unfold pollStep. unfold found in Hnf.
      destruct (findSent lastMessageId msgs); [discriminate | reflexivity]. }
    rewrite Hstep.
    destruct (IH (S i) st w1 Hh1) as (w2 & evs & -> & Hw2 & Hg & Hh2). simpl.
    exists w2, (evs ++ [EvSleep ms]). split; [reflexivity|].
    rewrite Hw2, Hw1, <- app_assoc. split; [reflexivity|].
    rewrite gets_app, Hg. split; [reflexivity | exact Hh2].
Qed.

(** If the held list contains the sent message, shows no reply and has the
    length last seen, three more polls end the loop by the no-change
    exit. *)
Lemma waitLoop_fresh_silent (msgs : list BotpressMessage) (n i : nat)
    (st : LoopState) (w : World P) :
  found lastMessageId msgs = true ->
  silent (Date_valueOf P) lastMessageId msgs ->
  length msgs = lastKnownMessageCount st -> noChangeCount st = 0%nat ->
  holds lo conversationId msgs w ->
  exists w' evs,
    waitLoop userKey conversationId lastMessageId (S (S (S n))) i st w =
      (w', inr (NoChange, [msgs; msgs; msgs])) /\
    wire w' = evs ++ wire w /\ gets evs = 0%nat /\
    holds lo conversationId msgs w'.
Proof.
  intros Hf Hs Hlen Hnc Hh.
  destruct (pollOnce_fresh i w msgs Hh) as (w1 & ms1 & H1 & Hh1 & Hw1).
  destruct (pollOnce_fresh (S i) w1 msgs Hh1) as (w2 & ms2 & H2 & Hh2 & Hw2).
  destruct (pollOnce_fresh (S (S i)) w2 msgs Hh2) as (w3 & ms3 & H3 & Hh3 & Hw3).
  exists w3, [EvSleep ms3; EvSleep ms2; EvSleep ms1].
  split.
  - apply (three_unchanged_polls_stop userKey conversationId lastMessageId n i st
             w w1 w2 w3 _ _ _ Hnc H1 H2 H3); simpl; auto.
  - rewrite Hw3, Hw2, Hw1. split; [reflexivity|]. split; [reflexivity | exact Hh3].
Qed.

(** A run on a cache without an entry for the conversation: the first poll
    asks upstream and decides the run. *)
Lemma steady_run (w : World P) :
  conversationCache w !! conversationId = None ->
  let r := waitForBotResponseRun userKey conversationId lastMessageId w in
  (exists e ms,
      snd r = inl e /\
      wire (fst r) = [EvHttp (GetMessages userKey conversationId) (Some e); EvSleep ms]
                       ++ wire w) \/
  (exists msgs evs ms out k,
      snd r = inr (out, List.repeat msgs k) /\
      wire (fst r) = evs ++ [EvHttp (GetMessages userKey conversationId) None; EvSleep ms]
                       ++ wire w /\
      gets evs = 0%nat /\ holds lo conversationId msgs (fst r) /\
      match out with
      | Replied m =>
          k = 1%nat /\
          exists lastMessage rest,
            findSent lastMessageId msgs = Some lastMessage /\
            botMessages (Date_valueOf P) lastMessageId lastMessage msgs = m :: rest
      | NoChange =>
          k = 4%nat /\ found lastMessageId msgs = true /\
          silent (Date_valueOf P) lastMessageId msgs
      | Exhausted => k = 15%nat /\ found lastMessageId msgs = false
      end).
Proof.
  intros Hnone r. subst r.
  rewrite waitForBotResponseRun_eq. unfold MAX_RETRIES. rewrite waitLoop_S.
  destruct (pollOnce_miss 0 w Hnone)
    as (w1 & ms & [(e & -> & Hw1) | (response & -> & Hw1 & Hh)]).
  { left. exists e, ms. simpl. auto. }
  right. set (msgs := messages response) in *.
  pose proof (pollStep_cases (Date_valueOf P) lastMessageId initialLoopState msgs) as Hc.
  destruct (pollStep (Date_valueOf P) lastMessageId initialLoopState msgs)
    as [st'| |m] eqn:Hstep.
  - destruct Hc as [Hsil [[Hnf ->] | [(Hf & Hlen & _) | (Hf & Hne & ->)]]].
    + destruct (waitLoop_fresh_not_found msgs 14 Hnf 1 initialLoopState w1 Hh)
        as (w2 & evs & -> & Hw2 & Hg & Hh2).
      exists msgs, evs, ms, Exhausted, 15%nat. simpl. rewrite Hw2, Hw1. auto 10.
    + apply found_nonempty in Hf. simpl in Hlen. lia.
    + destruct (waitLoop_fresh_silent msgs 11 1
                  {| lastKnownMessageCount := length msgs; noChangeCount := 0 |}
                  w1 Hf Hsil eq_refl eq_refl Hh) as (w2 & evs & -> & Hw2 & Hg & Hh2).
      exists msgs, evs, ms, NoChange, 4%nat. simpl. rewrite Hw2, Hw1. auto 10.
  - destruct Hc as (Hf & Hlen & _). apply found_nonempty in Hf. simpl in Hlen. lia.
  - exists msgs, [], ms, (Replied m), 1%nat. simpl. rewrite Hw1.
    split; [reflexivity|]. split; [reflexivity|]. split; [reflexivity|].
    split; [exact Hh|]. split; [reflexivity | exact Hc].
Qed.

(** While the clock is steady, [listMessages] on a cache that holds the
    list is a hit, for any key. *)
Lemma steady_hit (key : string) (w : World P) (msgs : list BotpressMessage) :
  holds lo conversationId msgs w ->
  snd (listMessages key conversationId w) =
    inr {| messages := msgs; meta := cachedMeta msgs |} /\
  wire (fst (listMessages key conversationId w)) = wire w.
Proof.
  intros (entry & He & Hm & Httl & Hlo).
  pose proof (steady (env w)) as [Ha1 Hb1].
  pose proof (steady (fst (Date_now P (env w)))) as [Ha2 Hb2].
  rewrite (listMessages_hit key conversationId w entry He) by lia.
  rewrite Hm, getCachedMessages_eq. split; reflexivity.
Qed.

End SteadyFacts.


Lemma Steady_clock : steadyClock Steady.platform 0.
Proof. intros e. simpl. unfold CACHE_TTL. lia. Qed.


Lemma botMessages_In (valueOf : string -> option Z) (lastMessageId : string)
    (lastMessage : BotpressMessage) (msgs : list BotpressMessage) (m : BotpressMessage) :
  In m (botMessages valueOf lastMessageId lastMessage msgs) <->
  In m msgs /\ msg_id m <> lastMessageId /\
  exists t0 t, valueOf (msg_createdAt lastMessage) = Some t0 /\
               valueOf (msg_createdAt m) = Some t /\ t0 < t.
Proof.
  unfold botMessages. rewrite List.filter_In, andb_true_iff, negb_true_iff.
  rewrite String.eqb_neq. unfold laterThan. split.
  - intros (Hin & Hid & Hl). split; [exact Hin|]. split; [exact Hid|].
    destruct (valueOf (msg_createdAt m)) as [t|]; [|discriminate].
    destruct (valueOf (msg_createdAt lastMessage)) as [t0|]; [|discriminate].
    exists t0, t. repeat split. apply Z.ltb_lt. exact Hl.
  - intros (Hin & Hid & t0 & t & -> & -> & Hlt). repeat split; auto.
    apply Z.ltb_lt. exact Hlt.
Qed.

(** X14. A message the waiter returns is taken from the last list it
    polled; it is not the sent message, its [createdAt] and that of the
    sent message are both valid dates, and it is strictly later. So the
    waiter never answers with the sent message or an earlier one, and it
    returns no message when the [createdAt] of the sent message cannot be
    read as a date. *)
Theorem X14_returned_reply_is_later_and_not_the_sent_message (P : Platform)
    (w w' : World P) (userKey conversationId lastMessageId : string)
    (m : BotpressMessage) :
  waitForBotResponse userKey conversationId lastMessageId w = (w', inr (Some m)) ->
  msg_id m <> lastMessageId /\
  exists polled pre msgs lastMessage t0 t,
    waitForBotResponseRun userKey conversationId lastMessageId w =
      (w', inr (Replied m, polled)) /\
    polled = pre ++ [msgs] /\ In m msgs /\
    findSent lastMessageId msgs = Some lastMessage /\
    Date_valueOf P (msg_createdAt lastMessage) = Some t0 /\
    Date_valueOf P (msg_createdAt m) = Some t /\ t0 < t.
Proof.
  rewrite waitForBotResponse_eq.
  destruct (waitForBotResponseRun userKey conversationId lastMessageId w)
    as [w1 [e|[out polled]]] eqn:Hrun; [discriminate|].
  intros [= -> Hout]. simpl in Hout.
  destruct out as [m'| |]; try discriminate. injection Hout as ->.
  pose proof Hrun as Hloop. rewrite waitForBotResponseRun_eq in Hloop.
  apply waitLoop_polled in Hloop as [_ (pre & msgs & lastMessage & rest & Hp & _ & Hf & Hb)].
  assert (Hin : In m (botMessages (Date_valueOf P) lastMessageId lastMessage msgs))
    by (rewrite Hb; left; reflexivity).
  apply botMessages_In in Hin as (Hin & Hid & t0 & t & Ht0 & Ht & Hlt).
  split; [exact Hid|].
  exists polled, pre, msgs, lastMessage, t0, t. auto 10.
Qed.

Lemma X14_witness :
  let w := Demo.world
             (Demo.script [Demo.page [Demo.older; Demo.hello; Demo.reply1]] 0) in
  snd (waitForBotResponse "key-1" "conv-1" "m1" w) = inr (Some Demo.reply1) /\
  msg_id Demo.reply1 <> "m1".
Proof.
  intros w. split; [vm_compute; reflexivity|].
  apply (X14_returned_reply_is_later_and_not_the_sent_message Demo.platform w
           (fst (waitForBotResponse "key-1" "conv-1" "m1" w)) "key-1" "conv-1" "m1"
           Demo.reply1).
  vm_compute; reflexivity.
Defined.

Lemma Legacy_waitLoop_S (P : Platform) (userKey conversationId lastMessageId : string)
    (n : nat) (w : World P) :
  Legacy.waitLoop userKey conversationId lastMessageId (S n) w =
  let a := http_get_messages P userKey conversationId (setTimeout P 1000 (env w)) in
  let w1 := mkWorld (conversationCache w) (fst a)
              (EvHttp (GetMessages userKey conversationId) (failureOf (snd a))
                 :: EvSleep 1000 :: wire w) in
  match snd a with
  | inl e => (w1, inl e)
  | inr response =>
      match findSent lastMessageId (messages response) with
      | None => Legacy.waitLoop userKey conversationId lastMessageId n w1
      | Some lastMessage =>
          match botMessages (Date_valueOf P) lastMessageId lastMessage
                  (messages response) with
          | m :: _ => (w1, inr (Some m))
          | [] => Legacy.waitLoop userKey conversationId lastMessageId n w1
          end
      end
  end.
Proof.
  simpl. unfold bind, wait, Legacy.listMessages, tryCatch, http, throw, ret. simpl.
  destruct (http_get_messages P userKey conversationId (setTimeout P 1000 (env w)))
    as [e1 [err|response]]; simpl; [reflexivity|].
  destruct (findSent lastMessageId (messages response)); [|reflexivity].
  destruct (botMessages _ _ _ _); reflexivity.
Qed.

(** X15. The earlier waiter of [src/services/botpressService.ts] has no
    cache: every attempt sleeps exactly one second and then asks upstream,
    so a run sends as many requests as it sleeps, at most 10, and it never
    changes the cache. *)
Theorem X15_legacy_waiter_asks_upstream_every_second (P : Platform) (w : World P)
    (userKey conversationId lastMessageId : string) :
  let r := Legacy.waitForBotResponse userKey conversationId lastMessageId w in
  conversationCache (fst r) = conversationCache w /\
  exists evs,
    wire (fst r) = evs ++ wire w /\
    (sleeps evs <= 10)%nat /\ gets evs = sleeps evs /\
    Forall (legacyEvent userKey conversationId) evs.
Proof.
  intros r. subst r.
  assert (Hloop : forall n (w0 : World P),
             conversationCache
               (fst (Legacy.waitLoop userKey conversationId lastMessageId n w0)) =
               conversationCache w0 /\
             exists evs,
               wire (fst (Legacy.waitLoop userKey conversationId lastMessageId n w0)) =
                 evs ++ wire w0 /\
               (sleeps evs <= n)%nat /\ gets evs = sleeps evs /\
               Forall (legacyEvent userKey conversationId) evs).
  { induction n as [|n IH]; intros w0.
    - split; [reflexivity|]. exists []. simpl. repeat split; auto.
    - rewrite Legacy_waitLoop_S. cbv zeta.
      destruct (http_get_messages P userKey conversationId (setTimeout P 1000 (env w0)))
        as [e1 res]. simpl.
      set (w1 := mkWorld _ _ _).
      assert (Hev : Forall (legacyEvent userKey conversationId)
                      [EvHttp (GetMessages userKey conversationId) (failureOf res);
                       EvSleep 1000])
        by (constructor; [right; eexists; reflexivity|];
            constructor; [left; reflexivity | constructor]).
      assert (Hstop : conversationCache w1 = conversationCache w0 /\
                      exists evs,
                        wire w1 = evs ++ wire w0 /\
                        (sleeps evs <= S n)%nat /\ gets evs = sleeps evs /\
                        Forall (legacyEvent userKey conversationId) evs).
      { split; [reflexivity|].
        exists [EvHttp (GetMessages userKey conversationId) (failureOf res); EvSleep 1000].
        split; [reflexivity|]. split; [unfold sleeps; simpl; lia|].
        split; [reflexivity | exact Hev]. }
      assert (Hrec : conversationCache
                       (fst (Legacy.waitLoop userKey conversationId lastMessageId n w1)) =
                       conversationCache w0 /\
                     exists evs,
                       wire (fst (Legacy.waitLoop userKey conversationId lastMessageId
                                    n w1)) = evs ++ wire w0 /\
                       (sleeps evs <= S n)%nat /\ gets evs = sleeps evs /\
                       Forall (legacyEvent userKey conversationId) evs).
      { destruct (IH w1) as (Hc & evs & He & Hs & Hg & Hall). split; [exact Hc|].
        exists (evs ++ [EvHttp (GetMessages userKey conversationId) (failureOf res);
                        EvSleep 1000]).
        rewrite He, <- app_assoc. split; [reflexivity|].
        rewrite sleeps_app, gets_app, Hg.
        split; [unfold sleeps at 2; simpl; lia|].
        split; [reflexivity|]. apply Forall_app; auto. }
      destruct res as [err|response]; [exact Hstop|].
      destruct (findSent lastMessageId (messages response)) as [lastMessage|];
        [|exact Hrec].
      destruct (botMessages _ _ _ _); [exact Hrec | exact Hstop]. }
  unfold Legacy.waitForBotResponse, tryCatch, throw.
  destruct (Hloop 10%nat w) as (Hc & evs & He & Hs & Hg & Hall).
  destruct (Legacy.waitLoop userKey conversationId lastMessageId 10 w) as [w2 [e|r0]];
    simpl in *; split; auto; exists evs; auto.
Qed.

(** ** History and conversation creation *)

Lemma slice_suffix {A : Type} (start : Z) (l : list A) :
  exists dropped, l = dropped ++ slice start l.
Proof. unfold slice. eexists. symmetry. apply firstn_skipn. Qed.

Lemma slice_last {A : Type} (limit : Z) (l : list A) :
  0 < limit ->
  length (slice (- limit) l) = Nat.min (Z.to_nat limit) (length l).
Proof.
  intros H. unfold slice.
  destruct (Z.ltb_spec (- limit) 0); [|lia].
  rewrite length_skipn. lia.
Qed.

Lemma slice_zero {A : Type} (l : list A) : slice (- 0) l = l.
Proof.
  unfold slice. simpl.
  assert (H : Z.to_nat (Z.min (- 0) (Z.of_nat (length l))) = 0%nat) by lia.
  rewrite H. reflexivity.
Qed.

(** X16. [getConversationHistory] returns a suffix of the list that
    [listMessages] returns: for a positive [limit] its last
    [min(limit, length)] messages, and for [limit = 0] the whole list (the
    slice from [-0] starts at the beginning), not the empty one. A failure
    of [listMessages] is thrown on unchanged. *)
Theorem X16_history_is_a_suffix (P : Platform) (w : World P)
    (userKey conversationId : string) (limit : Z) :
  let l := listMessages userKey conversationId w in
  match snd l with
  | inl e => getConversationHistory userKey conversationId limit w = (fst l, inl e)
  | inr response =>
      exists history,
        getConversationHistory userKey conversationId limit w = (fst l, inr history) /\
        (exists dropped, messages response = dropped ++ history) /\
        (0 < limit ->
         length history = Nat.min (Z.to_nat limit) (length (messages response))) /\
        (limit = 0 -> history = messages response)
  end.
Proof.
  intros l. subst l. unfold getConversationHistory, tryCatch, bind, ret, throw.
  destruct (listMessages userKey conversationId w) as [w1 [e|response]]; simpl;
    [reflexivity|].
  eexists. split; [reflexivity|]. split; [apply slice_suffix|].
  split; [apply slice_last|]. intros ->. apply slice_zero.
Qed.

Lemma X16_witness :
  let w := Demo.world
             (Demo.script [Demo.page [Demo.older; Demo.hello; Demo.reply1; Demo.reply2]] 0) in
  snd (getConversationHistory "key-1" "conv-1" 2 w) = inr [Demo.reply1; Demo.reply2] /\
  snd (getConversationHistory "key-1" "conv-1" 0 w) =
    inr [Demo.older; Demo.hello; Demo.reply1; Demo.reply2] /\
  exists history,
    getConversationHistory "key-1" "conv-1" 0 w =
      (fst (listMessages "key-1" "conv-1" w), inr history) /\
    history = [Demo.older; Demo.hello; Demo.reply1; Demo.reply2].
Proof.
  intros w. split; [vm_compute; reflexivity|]. split; [vm_compute; reflexivity|].
  pose proof (X16_history_is_a_suffix Demo.platform w "key-1" "conv-1" 0) as H.
  cbv zeta in H.
  replace (snd (listMessages "key-1" "conv-1" w))
    with (Demo.page [Demo.older; Demo.hello; Demo.reply1; Demo.reply2]) in H
    by (vm_compute; reflexivity).
  simpl in H. destruct H as (history & H1 & _ & _ & H0).
  exists history. split; [exact H1 | exact (H0 eq_refl)].
Defined.

(** X17. [createConversation] sends one request and leaves the cache
    alone. It returns the id of the answer only when that id is present and
    not empty. Otherwise it throws an error whose message is
    "Failed to create conversation: " followed by the message of the
    transport failure, or by "Invalid conversation creation response" when
    the answer carries no id. *)
Theorem X17_createConversation_outcomes (P : Platform) (w : World P) (userKey : string) :
  let a := http_post_conversations P userKey (env w) in
  let r := createConversation userKey w in
  wire (fst r) = EvHttp (PostConversations userKey) (failureOf (snd a)) :: wire w /\
  conversationCache (fst r) = conversationCache w /\
  (forall id, snd r = inr id <-> id <> "" /\ snd a = inr (Some id)) /\
  (forall e, snd r = inl e ->
     (exists cause, snd a = inl cause /\
                    err_message e =
                      ("Failed to create conversation: " ++ err_message cause)%string) \/
     ((snd a = inr None \/ snd a = inr (Some "")) /\
      err_message e =
        "Failed to create conversation: Invalid conversation creation response")).
Proof.
  intros a r. subst a r.
  destruct (createConversation_cases userKey w) as [Hw Hr]. cbv zeta in Hw, Hr.
  rewrite Hw, Hr. simpl. split; [reflexivity|]. split; [reflexivity|].
  destruct (snd (http_post_conversations P userKey (env w))) as [cause|[id0|]]; simpl.
  - split; [intros id; split; [discriminate | intros [_ [=]]]|].
    intros e [= <-]. left. eauto.
  - destruct (String.eqb_spec id0 "") as [->|Hne].
    + split; [intros id; split; [discriminate | intros [Hid [= Heq]]; congruence]|].
      intros e [= <-]. right. auto.
    + split; [|intros e [=]].
      intros id. split; [intros [= <-]; auto | intros [_ [= ->]]; reflexivity].
  - split; [intros id; split; [discriminate | intros [_ [=]]]|].
    intros e [= <-]. right. auto.
Qed.

Lemma X17_witness :
  snd (createConversation "key-1" (Demo.world (Demo.script [] 0))) = inr "conv-1".
Proof.
  apply (proj1 (proj2 (proj2 (X17_createConversation_outcomes Demo.platform
                                (Demo.world (Demo.script [] 0)) "key-1")))).
  split; [discriminate | reflexivity].
Defined.

(** ** The chat handler: the reply and the history *)

(** A response with a chat body comes from a valid string message. *)
Lemma chat_body_means_valid (P : Platform) (req : ChatRequest) (w : World P)
    (cr : ChatResponse) :
  body (snd (handleChatMessage req w)) = ChatBody cr ->
  exists text, req_message req = JsString text /\ validText text.
Proof.
  intros Hb.
  destruct (req_message req) as [| |b|q|text|items|fields] eqn:Hm.
  1,2: rewrite chat_missing_message in Hb by auto; discriminate.
  1,2,4,5: rewrite chat_non_string_message in Hb by (rewrite Hm; simpl; congruence);
           discriminate.
  exists text. split; [reflexivity|].
  destruct (String.eqb_spec text "") as [->|Hne].
  { rewrite chat_missing_message in Hb by auto. discriminate. }
  destruct (allChars isWhiteSpace text) eqn:Hws.
  { rewrite (chat_blank_message req w text) in Hb
      by (auto; apply trim_blank; exact Hws).
    discriminate. }
  assert (Htrim : trim text <> "") by (intros E; apply trim_blank in E; congruence).
  destruct (Nat.ltb_spec 5000 (String.length text)) as [Hl|Hs].
  { rewrite (chat_too_long_message P req w text) in Hb by auto. discriminate. }
  split; assumption.
Qed.

Lemma reply_is_not_the_sent_message (P : Platform) (w w' : World P)
    (userKey conversationId lastMessageId : string) (m : BotpressMessage) :
  waitForBotResponse userKey conversationId lastMessageId w = (w', inr (Some m)) ->
  msg_id m <> lastMessageId /\ exists t, Date_valueOf P (msg_createdAt m) = Some t.
Proof.
  rewrite waitForBotResponse_eq, waitForBotResponseRun_eq.
  destruct (waitLoop userKey conversationId lastMessageId MAX_RETRIES 0
              initialLoopState w) as [w1 [e|[out polled]]] eqn:Hloop; [discriminate|].
  intros [= -> Hout]. destruct out as [m'| |]; try discriminate.
  simpl in Hout. injection Hout as ->.
  apply waitLoop_polled in Hloop as [_ (pre & msgs & lastMessage & rest & _ & _ & _ & Hb)].
  assert (Hin : In m (botMessages (Date_valueOf P) lastMessageId lastMessage msgs))
    by (rewrite Hb; left; reflexivity).
  apply botMessages_In in Hin as (_ & Hid & t0 & t & _ & Ht & _). eauto.
Qed.


(** ** The chat handler under a steady clock, and a failing waiter *)

Lemma resolveUser_gets (P : Platform) (req : ChatRequest) (w : World P) :
  gets (wire (fst (resolveUser req w))) = gets (wire w).
Proof.
  destruct (resolveUser_cases req w) as [[_ H] | [_ (f & Hw & _)]].
  - rewrite H. reflexivity.
  - rewrite Hw. reflexivity.
Qed.

Lemma resolveConversation_gets (P : Platform) (req : ChatRequest) (key : string)
    (w : World P) :
  gets (wire (fst (resolveConversation req key w))) = gets (wire w).
Proof.
  destruct (resolveConversation_cases req key w) as [[_ H] | [_ (f & Hw & _)]].
  - rewrite H. reflexivity.
  - rewrite Hw. reflexivity.
Qed.

Lemma sendMessage_sent (P : Platform) (key cid text : string) (w3 w4 : World P)
    (sentMessage : BotpressMessageResponse) :
  sendMessage key cid text w3 = (w4, inr sentMessage) ->
  conversationCache w4 !! cid = None /\ gets (wire w4) = gets (wire w3).
Proof.
  rewrite sendMessage_eq. cbv zeta.
  destruct (http_post_messages P key cid text (env w3)) as [e1 [err|r]]; simpl;
    intros H; [discriminate|].
  injection H as <- _. simpl. split; [apply lookup_delete_eq | reflexivity].
Qed.

(** Under a steady clock a reply of the waiter is in the list that the next
    [listMessages] serves from the cache, and the two steps ask upstream
    once. *)
Lemma steady_reply_then_history (P : Platform) (lo : Z) (key cid id : string)
    (w4 w5 : World P) (reply : BotpressMessage) :
  steadyClock P lo ->
  conversationCache w4 !! cid = None ->
  waitForBotResponse key cid id w4 = (w5, inr (Some reply)) ->
  exists msgs,
    snd (listMessages key cid w5) = inr {| messages := msgs; meta := cachedMeta msgs |} /\
    In reply msgs /\
    gets (wire (fst (listMessages key cid w5))) = S (gets (wire w4)).
Proof.
  intros Hsteady Hnone Hwait.
  rewrite waitForBotResponse_eq in Hwait.
  pose proof (steady_run key cid id lo Hsteady w4 Hnone) as Hrun0. cbv zeta in Hrun0.
  destruct (waitForBotResponseRun key cid id w4) as [w' [e'|run]]; [discriminate|].
  injection Hwait as -> Htn.
  destruct Hrun0 as [(e & ms & Hrun & _) |
                     (msgs & evs & ms & out & k & Hrun & Hw5 & Hg & Hh & Hout)];
    simpl in Hrun; [discriminate|].
  injection Hrun as ->. simpl in Htn, Hw5, Hh.
  destruct out as [m| |]; try discriminate Htn. simpl in Htn. injection Htn as ->.
  destruct Hout as (_ & lastMessage & rest & Hf & Hbm).
  destruct (steady_hit cid lo Hsteady key w5 msgs Hh) as [Hhit Hwire].
  exists msgs. split; [exact Hhit|]. split.
  - assert (Hin : In reply (botMessages (Date_valueOf P) id lastMessage msgs))
      by (rewrite Hbm; left; reflexivity).
    apply botMessages_In in Hin. tauto.
  - rewrite Hwire, Hw5, gets_app, Hg. reflexivity.
Qed.





(** ** The request validation middleware *)


